(** * gpustats.sampler: launch-geometry planning and the sampling facade

    A shallow embedding of [src/gpustats/sampler.py] (Python 2, PyCUDA) and
    the properties of its launch-geometry planner ([sample_discrete]'s fixed
    block design and the legacy [_tune_sfm] search) and of the host-side
    facade around the kernel launch.

    Python ints are [Z]; [/] between ints is Python 2's floor division
    ([Z.div]) and [%] is [Z.modulo].  Python floats are binary64 values
    ([PyFloat]).  The facade is a state-and-exception monad over a [world]
    that holds the device memory, NumPy's global generator and the log of
    kernel launches.  Device memory is released by the explicit [free()]
    calls of the source and, when a call returns, by the destruction of the
    device array that the call made for the densities; an exception leaves
    the call with its local arrays still allocated. *)

From Stdlib Require Import ZArith Lia Bool List QArith.
From Stdlib Require Import Floats.SpecFloat.
From stdpp Require Import base option gmap.

Local Open Scope Z_scope.

(** ** Python floats

    [_tune_sfm] mixes Python ints with the float literals [0.8], [0.9] and
    [0.5].  A finite binary64 value is kept as [mant * 2 ^ expo]; every
    operation rounds its exact result to 53 significant bits, ties to even.
    The exponent range (overflow to infinity, gradual underflow) is not
    represented: the planner multiplies device attributes, which are C ints,
    by constants between one half and one, and on that range the products
    are those of the standard library's IEEE 754 specification
    ([PyFloatSpec.products_agree_with_spec]). *)
Module PyFloat.

Record float := mk { mant : Z; expo : Z }.

Definition prec : Z := 53.

(** Bit length of a positive integer. *)
Definition bits (m : Z) : Z := Z.log2 m + 1.

(** The mantissa of [m] cut to its upper [bits m - s] bits and rounded to
    nearest; a tie goes to the even mantissa. *)
Definition round_mant (m s : Z) : Z :=
  let q := m / 2 ^ s in
  let r := m mod 2 ^ s in
  let half := 2 ^ (s - 1) in
  let up := (half <? r) || ((r =? half) && Z.odd q) in
  if up then q + 1 else q.

(** Nearest value with at most [prec] significant bits of [m * 2 ^ e],
    for [0 <= m]; a mantissa that rounds up to [2 ^ prec] is renormalised. *)
Definition round_pos (m e : Z) : float :=
  let s := bits m - prec in
  if s <=? 0 then mk m e
  else
    let q := round_mant m s in
    if q =? 2 ^ prec then mk (2 ^ (prec - 1)) (e + s + 1) else mk q (e + s).

Definition opp (f : float) : float := mk (- mant f) (expo f).

Definition round (m e : Z) : float :=
  if m <? 0 then opp (round_pos (- m) e) else round_pos m e.

(** [float(i)] for a Python int. *)
Definition of_int (i : Z) : float := round i 0.

(** [a * b] on floats. *)
Definition mul (a b : float) : float :=
  round (mant a * mant b) (expo a + expo b).

(** [i < f] for a Python int [i] and a float [f]: CPython compares the two
    exactly, without converting the int. *)
Definition int_lt (i : Z) (f : float) : bool :=
  if 0 <=? expo f then i <? mant f * 2 ^ expo f
  else i * 2 ^ (- expo f) <? mant f.

(** [int(f)]: truncation toward zero. *)
Definition to_int (f : float) : Z :=
  if 0 <=? expo f then mant f * 2 ^ expo f
  else Z.quot (mant f) (2 ^ (- expo f)).

(** The binary64 values of the literals [0.8], [0.9] and [0.5]. *)
Definition lit_0_8 : float := mk 7205759403792794 (-53).
Definition lit_0_9 : float := mk 8106479329266893 (-53).
Definition lit_0_5 : float := mk 4503599627370496 (-53).

(** The same value in the representation of the standard library's
    IEEE 754 specification. *)
Definition to_spec (f : float) : spec_float :=
  match mant f with
  | Z0 => S754_zero false
  | Zpos m => S754_finite false m (expo f)
  | Zneg m => S754_finite true m (expo f)
  end.

Definition spec_of_int (i : Z) : spec_float := binary_normalize 53 1024 i 0 false.
Definition spec_mul : spec_float -> spec_float -> spec_float := SFmul 53 1024.

End PyFloat.

(** ** Device limits

    [gpustats.util.info]: the attributes of the current device that
    [sampler.py] reads. *)
Record DeviceInfo := {
  compute_cap : Z * Z;
  max_block_threads : Z;
  shared_mem : Z;
  max_registers : Z
}.

(** The keyword arguments of a PyCUDA kernel call. *)
Record launch := {
  block : Z * Z * Z;
  grid : Z * Z;
  shared : Z
}.

Definition block_x (b : Z * Z * Z) : Z := fst (fst b).
Definition block_y (b : Z * Z * Z) : Z := snd (fst b).

(** ** The fixed block design of [sample_discrete] (lines 56-67) *)
Definition sample_discrete_design (info : DeviceInfo) (n : Z) : launch :=
  let x_block_dim := if max_block_threads info <? 1024 then 16 else 32 in
  let y_block_dim := 16 in
  let block_design := (x_block_dim, y_block_dim, 1) in
  let grid_design := (n / y_block_dim + 1, 1) in
  let shared_mem := 4 * ((x_block_dim + 1) * y_block_dim + 2 * y_block_dim) in
  {| block := block_design; grid := grid_design; shared := shared_mem |}.

(** ** The legacy search [_tune_sfm] (lines 155-189) *)
Definition sfm_config_ok (xdim ydim stride func_regs : Z)
    (max_regs max_smem : PyFloat.float) (max_threads : Z) : bool :=
  let ok := PyFloat.int_lt (4 * (xdim * stride + 1 * xdim)) max_smem
            && PyFloat.int_lt (func_regs * ydim * xdim) max_regs in
  ok && (xdim * ydim <=? max_threads).

Definition tune_xdim (info : DeviceInfo) : Z :=
  if fst (compute_cap info) =? 1 then 16 else 32.

Definition tune_max_smem (info : DeviceInfo) : PyFloat.float :=
  PyFloat.mul (PyFloat.of_int (shared_mem info)) PyFloat.lit_0_8.

Definition tune_max_threads (info : DeviceInfo) : Z :=
  PyFloat.to_int (PyFloat.mul (PyFloat.of_int (max_block_threads info)) PyFloat.lit_0_5).

Definition tune_max_regs (info : DeviceInfo) : PyFloat.float :=
  PyFloat.mul PyFloat.lit_0_9 (PyFloat.of_int (max_registers info)).

(** The loop condition of line 182 as a function of [ydim]. *)
Definition tune_ok (info : DeviceInfo) (stride func_regs ydim : Z) : bool :=
  sfm_config_ok (tune_xdim info) ydim stride func_regs
    (tune_max_regs info) (tune_max_smem info) (tune_max_threads info).

(** [while ok(ydim): ydim += 1], with the number of iterations bounded by
    [fuel]; [None] when the fuel runs out. *)
Fixpoint tune_loop (fuel : nat) (ok : Z -> bool) (ydim : Z) : option Z :=
  match fuel with
  | O => None
  | S fuel' => if ok ydim then tune_loop fuel' ok (ydim + 1) else Some ydim
  end.

Definition _tune_sfm (fuel : nat) (info : DeviceInfo) (n stride func_regs : Z)
    : option ((Z * Z) * (Z * Z * Z)) :=
  let xdim := tune_xdim info in
  match tune_loop fuel (tune_ok info stride func_regs) 2 with
  | None => None
  | Some ydim =>
      let ydim := ydim - 1 in
      let nblocks := n / xdim + 1 in
      Some ((nblocks, 1), (xdim, ydim, 1))
  end.

(** Fuel that always suffices: the thread bound stops the loop. *)
Definition tune_fuel (info : DeviceInfo) : nat :=
  S (Z.to_nat (tune_max_threads info)).

(** Lines 131-133 of [sample_discrete_old]: the row stride handed to the
    kernel. *)
Definition old_stride (cols : Z) : Z :=
  if cols mod 2 =? 0 then cols + 1 else cols.

(** Lines 138-145 of [sample_discrete_old]: the launch arguments. *)
Definition sample_discrete_old_design (fuel : nat) (info : DeviceInfo)
    (n cols func_regs : Z) : option launch :=
  let stride := old_stride cols in
  match _tune_sfm fuel info n stride func_regs with
  | None => None
  | Some (grid_design, block_design) =>
      let shared_mem := 4 * (block_x block_design * stride + 1 * block_x block_design) in
      Some {| block := block_design; grid := grid_design; shared := shared_mem |}
  end.

(** A compute-capability 2.0 device (Fermi). *)
Definition fermi : DeviceInfo :=
  {| compute_cap := (2, 0); max_block_threads := 1024;
     shared_mem := 49152; max_registers := 32768 |}.

(** ** Arrays, device memory and the compiled module *)

Inductive np_dtype := float32 | int32.

(** An entry of the density matrix. *)
Inductive weight := Finite (q : Q) | NonFinite.

(** A two-dimensional array of weights: its [shape] and its rows. *)
Record ndarray := { shape : Z * Z; rows : list (list weight) }.

(** What a device allocation holds: the densities, the uniform draws, or
    the destination of the kernel with its element type, its length and the
    numbers written to it. *)
Inductive buffer :=
| Weights (a : ndarray)
| Draws (us : list Q)
| Dest (dt : np_dtype) (len : Z) (vals : list Z).

Definition nbytes (b : buffer) : Z :=
  match b with
  | Weights a => 4 * (fst (shape a) * snd (shape a))
  | Draws us => 4 * Z.of_nat (length us)
  | Dest _ len _ => 4 * len
  end.

(** A PyCUDA [GPUArray]: [gpudata] is the handle of its allocation, and
    [None] for an array without elements, for which PyCUDA allocates
    nothing. *)
Record GPUArray := {
  gpudata : option nat;
  ga_shape : Z * Z;
  ga_dtype : np_dtype;
  f_contiguous : bool
}.

(** The [densities] argument: an [ndarray] or a [GPUArray]. *)
Inductive array := OnHost (a : ndarray) | OnDevice (g : GPUArray).

(** What a sampling call returns: [gpu_dest] itself, or its copy on the host. *)
Inductive indices := Resident (g : GPUArray) | Copied (dt : np_dtype) (vals : list Z).

Inductive kernel_name :=
  K_sample_discrete | K_sample_discrete_old | K_sample_discrete_logged_old.

(** A function of the compiled module: its register count and what a launch
    writes to the destination ([None]: the launch fails). *)
Record cu_function := {
  num_regs : Z;
  run : launch -> list Z -> ndarray -> list Q -> option (list Z)
}.

(** What a call reads but never changes: the device attributes
    ([gpustats.util.info]), the compiled module ([cu_module]), and
    [util.pad_data_mult16(densities, fill)], a helper of [gpustats.util]
    that is outside the source tree and is kept as a parameter. *)
Record environment := {
  info : DeviceInfo;
  cu_module : kernel_name -> cu_function;
  pad_data_mult16 : array -> Z -> array
}.

(** The state of NumPy's global generator: the uniform draws it will hand
    out and how many it has handed out. *)
Record RandomState := { stream : nat -> Q; consumed : nat }.

(** The mutable state around a call: the live device allocations by handle,
    the next handle the driver will issue, the free device memory in bytes,
    NumPy's generator, and the launches attempted so far, latest first. *)
Record world := {
  heap : gmap nat buffer;
  next_handle : nat;
  mem_free : Z;
  np_random : RandomState;
  launched : list launch
}.

(** PyCUDA's [MemoryError] (allocation), [LogicError] (use of a handle that
    is not allocated) and [LaunchError]; [NoneUsed], the error Python raises
    when the [gpudata] of an array without elements, which is [None], is
    used as a device allocation; the [ValidationError] of the specification,
    which no statement of [sampler.py] raises; and [OutOfFuel], for a
    [_tune_sfm] loop cut short by its fuel. *)
Inductive exn :=
  MemoryError | LogicError | LaunchError | NoneUsed | ValidationError | OutOfFuel.

Inductive result (A : Type) := Ok (a : A) | Raise (e : exn).
Arguments Ok {A} a.
Arguments Raise {A} e.

(** A computation returns or raises, and leaves a world behind either way. *)
Definition M (A : Type) : Type := world -> result A * world.

Definition ret {A} (a : A) : M A := fun w => (Ok a, w).
Definition raise {A} (e : exn) : M A := fun w => (Raise e, w).
Definition bind {A B} (c : M A) (k : A -> M B) : M B :=
  fun w => match c w with
           | (Ok a, w') => k a w'
           | (Raise e, w') => (Raise e, w')
           end.

#[global] Instance M_ret : MRet M := @ret.
#[global] Instance M_bind : MBind M := fun A B k c => bind c k.

(** The [gpudata] of a new [GPUArray] holding [b]: [None] and no allocation
    when the array has no elements ([if self.size: ... else: self.gpudata =
    None]), otherwise [cuMemAlloc] followed by the copy of [b]. *)
Definition mem_alloc (b : buffer) : M (option nat) := fun w =>
  if nbytes b =? 0 then (Ok None, w)
  else if nbytes b <=? mem_free w then
    (Ok (Some (next_handle w)),
     {| heap := <[next_handle w := b]> (heap w);
        next_handle := S (next_handle w);
        mem_free := mem_free w - nbytes b;
        np_random := np_random w;
        launched := launched w |})
  else (Raise MemoryError, w).

(** The allocation under [h] goes back to the device. *)
Definition release (h : nat) (b : buffer) (w : world) : world :=
  {| heap := delete h (heap w);
     next_handle := next_handle w;
     mem_free := mem_free w + nbytes b;
     np_random := np_random w;
     launched := launched w |}.

(** [g.gpudata.free()]. *)
Definition free (g : GPUArray) : M unit := fun w =>
  match gpudata g with
  | None => (Raise NoneUsed, w)
  | Some h =>
      match heap w !! h with
      | Some b => (Ok tt, release h b w)
      | None => (Raise LogicError, w)
      end
  end.

(** The destruction of a [GPUArray] that nothing refers to any more: PyCUDA
    releases its allocation unless it has been freed already. *)
Definition drop (g : GPUArray) : M unit := fun w =>
  match gpudata g with
  | None => (Ok tt, w)
  | Some h =>
      match heap w !! h with
      | Some b => (Ok tt, release h b w)
      | None => (Ok tt, w)
      end
  end.

(** [to_gpu(a)] for the densities and for the draws, and
    [gpu_empty(n, dtype)]. *)
Definition to_gpu (a : ndarray) : M GPUArray :=
  h ← mem_alloc (Weights a);
  ret {| gpudata := h; ga_shape := shape a; ga_dtype := float32; f_contiguous := false |}.

Definition to_gpu_draws (us : list Q) : M GPUArray :=
  h ← mem_alloc (Draws us);
  ret {| gpudata := h; ga_shape := (Z.of_nat (length us), 1); ga_dtype := float32;
         f_contiguous := false |}.

Definition gpu_empty (n : Z) (dt : np_dtype) : M GPUArray :=
  h ← mem_alloc (Dest dt n []);
  ret {| gpudata := h; ga_shape := (n, 1); ga_dtype := dt; f_contiguous := false |}.

(** [np.asarray(np.random.rand(n), dtype=np.float32)]: the next [n] draws
    of the global generator. *)
Definition np_random_rand (n : Z) : M (list Q) := fun w =>
  let st := np_random w in
  (Ok (map (stream st) (seq (consumed st) (Z.to_nat n))),
   {| heap := heap w; next_handle := next_handle w; mem_free := mem_free w;
      np_random := {| stream := stream st; consumed := (consumed st + Z.to_nat n)%nat |};
      launched := launched w |}).

(** A kernel call.  PyCUDA first turns every array argument into its device
    pointer, which raises for an array whose [gpudata] is [None]; then the
    launch is recorded, the function runs on the contents of its three
    array arguments and fills the destination. *)
Definition call (f : cu_function) (gpu_densities gpu_random gpu_dest : GPUArray)
    (dims : list Z) (l : launch) : M unit := fun w =>
  let w' := {| heap := heap w; next_handle := next_handle w; mem_free := mem_free w;
               np_random := np_random w; launched := l :: launched w |} in
  match gpudata gpu_densities, gpudata gpu_random, gpudata gpu_dest with
  | Some h_densities, Some h_random, Some h_dest =>
      match heap w !! h_densities, heap w !! h_random, heap w !! h_dest with
      | Some (Weights a), Some (Draws us), Some (Dest dt len _) =>
          match run f l dims a us with
          | Some vals =>
              (Ok tt,
               {| heap := <[h_dest := Dest dt len vals]> (heap w);
                  next_handle := next_handle w; mem_free := mem_free w;
                  np_random := np_random w; launched := l :: launched w |})
          | None => (Raise LaunchError, w')
          end
      | _, _, _ => (Raise LaunchError, w')
      end
  | _, _, _ => (Raise NoneUsed, w)
  end.

(** [g.get()]; an array without elements has nothing to copy. *)
Definition get (g : GPUArray) : M indices := fun w =>
  match gpudata g with
  | None => (Ok (Copied (ga_dtype g) []), w)
  | Some h =>
      match heap w !! h with
      | Some (Dest dt _ vals) => (Ok (Copied dt vals), w)
      | _ => (Raise LogicError, w)
      end
  end.

(** Modelled from the spec: [util.prep_ndarray] and [util.transpose] of
    [gpustats.util], which is not part of the source tree.  Section 4.3 has
    them bring the matrix to row-major layout and leave its entries alone.
    The row-major copy of a device array is taken to be a new device array;
    the specification does not say how many allocations the transposition
    makes, and no property below counts them. *)
Definition util_prep_ndarray (a : ndarray) : ndarray := a.

Definition util_transpose (g : GPUArray) : M GPUArray := fun w =>
  match gpudata g with
  | None =>
      (Ok {| gpudata := None; ga_shape := ga_shape g; ga_dtype := ga_dtype g;
             f_contiguous := false |}, w)
  | Some h_src =>
      match heap w !! h_src with
      | Some (Weights a) =>
          (h ← mem_alloc (Weights a);
           mret {| gpudata := h; ga_shape := ga_shape g; ga_dtype := ga_dtype g;
                   f_contiguous := false |}) w
      | _ => (Raise LogicError, w)
      end
  end.

Definition densities_shape (densities : array) : Z * Z :=
  match densities with
  | OnHost a => shape a
  | OnDevice g => ga_shape g
  end.

(** Lines 39-46, and again 117-124. *)
Definition prep_data (densities : array) : M GPUArray :=
  match densities with
  | OnDevice g => if f_contiguous g then util_transpose g else mret g
  | OnHost a => to_gpu (util_prep_ndarray a)
  end.

(** Lines 73-79, and again 147-153. *)
Definition finish (gpu_random gpu_dest : GPUArray) (return_gpuarray : bool) : M indices :=
  free gpu_random;;
  if return_gpuarray then mret (Resident gpu_dest)
  else
    res ← get gpu_dest;
    free gpu_dest;;
    mret res.

(** Whether [gpu_densities] is the caller's own array (lines 43 and 121), and
    not one that the call has made (lines 41 and 46, 119 and 124). *)
Definition borrowed (densities : array) : bool :=
  match densities with
  | OnDevice g => negb (f_contiguous g)
  | OnHost _ => false
  end.

(** The end of a call that returns: the local [gpu_densities] goes out of
    scope, and an array that the call made itself is destroyed with it.
    ([gpu_random] and a copied-out [gpu_dest] have been freed by then, and a
    resident [gpu_dest] is in the hands of the caller.)  When a call raises,
    the traceback keeps its locals alive, and nothing is destroyed as the
    error leaves the call. *)
Definition leave (densities : array) (gpu_densities : GPUArray) : M unit :=
  if borrowed densities then mret tt else drop gpu_densities.

(** [sample_discrete] (lines 16-79). *)
Definition sample_discrete (env : environment) (densities : array)
    (logged return_gpuarray : bool) : M indices :=
  let '(n, k) := densities_shape densities in
  gpu_densities ← prep_data densities;
  let cu_func := cu_module env K_sample_discrete in
  us ← np_random_rand n;
  gpu_random ← to_gpu_draws us;
  gpu_dest ← gpu_empty n int32;
  let dims := [n; k; Z.b2z logged] in
  call cu_func gpu_densities gpu_random gpu_dest dims
       (sample_discrete_design (info env) n);;
  res ← finish gpu_random gpu_dest return_gpuarray;
  leave densities gpu_densities;;
  mret res.

(** [sample_discrete_old] (lines 83-153).  [_tune_sfm] gets the fuel
    [tune_fuel], which always suffices ([tune_never_out_of_fuel]). *)
Definition sample_discrete_old (env : environment) (in_densities : array)
    (logged pad return_gpuarray : bool) : M indices :=
  let densities :=
    if pad then
      if logged then pad_data_mult16 env in_densities 1
      else pad_data_mult16 env in_densities 0
    else in_densities in
  let '(n, k) := densities_shape densities in
  let cu_func :=
    if logged then cu_module env K_sample_discrete_logged_old
    else cu_module env K_sample_discrete_old in
  gpu_densities ← prep_data densities;
  us ← np_random_rand n;
  gpu_random ← to_gpu_draws us;
  gpu_dest ← gpu_empty n float32;
  let cols := snd (ga_shape gpu_densities) in
  let dims := [n; k; cols; old_stride cols] in
  match sample_discrete_old_design (tune_fuel (info env)) (info env) n cols
          (num_regs cu_func) with
  | None => raise OutOfFuel
  | Some design =>
      call cu_func gpu_densities gpu_random gpu_dest dims design;;
      res ← finish gpu_random gpu_dest return_gpuarray;
      leave densities gpu_densities;;
      mret res
  end.

(** ** The kernel *)

Definition Qltb (a b : Q) : bool := negb (Qle_bool b a).

(** Modelled from the spec: the CUDA kernel, which is compiled from
    [gpustats.kernels] and is not part of the source tree.  This is the
    per-row algorithm of section 4.2 for linear-scale weights, in exact
    arithmetic: the sampled index is the first one whose cumulative mass
    exceeds [u * total]; a row where none does, or one with a non-finite
    entry, yields [k - 1]. *)
Fixpoint inverse_cdf (ws : list Q) (target acc : Q) (i : Z) : Z :=
  match ws with
  | [] => i - 1
  | w :: ws' =>
      let acc' := (acc + w)%Q in
      if Qltb target acc' then i else inverse_cdf ws' target acc' (i + 1)
  end.

Fixpoint finite_row (r : list weight) : option (list Q) :=
  match r with
  | [] => Some []
  | Finite q :: r' => option_map (cons q) (finite_row r')
  | NonFinite :: _ => None
  end.

Definition total_mass (ws : list Q) : Q := fold_right Qplus 0%Q ws.

Definition sample_row (k : Z) (r : list weight) (u : Q) : Z :=
  match finite_row (firstn (Z.to_nat k) r) with
  | Some ws => inverse_cdf ws (u * total_mass ws)%Q 0%Q 0
  | None => k - 1
  end.

Definition categorical_kernel (n k : Z) (a : ndarray) (us : list Q) : list Z :=
  map (fun i => sample_row k (nth i (rows a) []) (nth i us 0%Q)) (seq 0 (Z.to_nat n)).

(** The driver refuses a launch whose block or shared memory exceeds the
    limits of the device. *)
Definition driver_accepts (info : DeviceInfo) (l : launch) : bool :=
  (block_x (block l) * block_y (block l) <=? max_block_threads info)
  && (shared l <=? shared_mem info).

(** A module whose functions run [categorical_kernel]; the log-scale
    reduction is not reproduced, and a log-scale launch fails. *)
Definition reference_module (info : DeviceInfo) (name : kernel_name) : cu_function :=
  {| num_regs := 20;
     run := fun l dims a us =>
       if driver_accepts info l then
         match name, dims with
         | K_sample_discrete, [n; k; 0] => Some (categorical_kernel n k a us)
         | K_sample_discrete_old, [n; k; _; _] => Some (categorical_kernel n k a us)
         | _, _ => None
         end
       else None |}.

Definition fermi_env : environment :=
  {| info := fermi; cu_module := reference_module fermi;
     pad_data_mult16 := fun a _ => a |}.

Definition fresh_world (draws : nat -> Q) : world :=
  {| heap := ∅; next_handle := 0; mem_free := 2 ^ 30;
     np_random := {| stream := draws; consumed := 0 |}; launched := [] |}.

(** Inputs of the closed examples: a fair two-way choice, a row with a
    non-finite entry, and one row of 2000 categories. *)
Definition fair_coin : ndarray :=
  {| shape := (1, 2); rows := [[Finite 1; Finite 1]] |}.

Definition nan_row : ndarray :=
  {| shape := (1, 2); rows := [[Finite 1; NonFinite]] |}.

Definition wide_row : ndarray :=
  {| shape := (1, 2000); rows := [repeat (Finite 1) 2000] |}.

(** ** Vocabulary of the properties *)

Definition ceil_div (a b : Z) : Z := - ((- a) / b).

(** Device attributes as the driver reports them: non-negative C ints. *)
Definition c_int_limits (info : DeviceInfo) : Prop :=
  0 <= max_block_threads info < 2 ^ 31 /\
  0 <= shared_mem info < 2 ^ 31 /\
  0 <= max_registers info < 2 ^ 31.

(** The invariant of a launch geometry for [n] rows on a device. *)
Definition within_limits (info : DeviceInfo) (rows_per_block n : Z) (l : launch) : Prop :=
  block_x (block l) * block_y (block l) <= max_block_threads info /\
  shared l <= shared_mem info /\
  n <= fst (grid l) * rows_per_block.

Definition indices_dtype (r : indices) : np_dtype :=
  match r with
  | Resident g => ga_dtype g
  | Copied dt _ => dt
  end.

Definition is_draws (b : buffer) : bool :=
  match b with Draws _ => true | _ => false end.

Definition is_dest (b : buffer) : bool :=
  match b with Dest _ _ _ => true | _ => false end.

(** What a sampling call started in [w] leaves on the device.  After a
    normal return every live draws buffer was live before the call, so was
    every live destination buffer when the result was copied out, and a
    resident result is a live destination buffer.  After a failed launch a
    draws buffer allocated by the call is still live. *)
Definition scratch_released (return_gpuarray : bool) (w : world)
    (r : result indices * world) : Prop :=
  match fst r with
  | Ok out =>
      (forall h b, heap (snd r) !! h = Some b -> is_draws b = true ->
                   heap w !! h = Some b) /\
      (return_gpuarray = false ->
       forall h b, heap (snd r) !! h = Some b -> is_dest b = true ->
                   heap w !! h = Some b) /\
      (return_gpuarray = true ->
       exists g h b, out = Resident g /\ gpudata g = Some h /\
                     heap (snd r) !! h = Some b /\ is_dest b = true)
  | Raise LaunchError =>
      exists h b, (next_handle w <= h)%nat /\ heap (snd r) !! h = Some b /\
                  is_draws b = true
  | Raise _ => True
  end.

(** The products of [_tune_sfm] computed here and by the standard library's
    binary64 multiplication, at the attribute value [i]. *)
Definition agrees_with_spec (i : Z) : Prop :=
  PyFloat.to_spec (PyFloat.mul (PyFloat.of_int i) PyFloat.lit_0_8)
    = PyFloat.spec_mul (PyFloat.spec_of_int i) (PyFloat.to_spec PyFloat.lit_0_8) /\
  PyFloat.to_spec (PyFloat.mul PyFloat.lit_0_9 (PyFloat.of_int i))
    = PyFloat.spec_mul (PyFloat.to_spec PyFloat.lit_0_9) (PyFloat.spec_of_int i) /\
  PyFloat.to_spec (PyFloat.mul (PyFloat.of_int i) PyFloat.lit_0_5)
    = PyFloat.spec_mul (PyFloat.spec_of_int i) (PyFloat.to_spec PyFloat.lit_0_5).

(** ** Vocabulary of the further properties *)

(** The numbers a sampling call hands back: those of the host copy, or
    those held by the resident destination. *)
Definition result_values (out : indices) (w : world) : option (list Z) :=
  match out with
  | Copied _ vals => Some vals
  | Resident g =>
      match gpudata g with
      | Some h =>
          match heap w !! h with
          | Some (Dest _ _ vals) => Some vals
          | _ => None
          end
      | None => None
      end
  end.

(** The next [n] draws of the generator in [w]. *)
Definition next_draws (w : world) (n : Z) : list Q :=
  map (stream (np_random w)) (seq (consumed (np_random w)) (Z.to_nat n)).

(** The function [sample_discrete_old] picks from the module. *)
Definition old_cu_func (env : environment) (logged : bool) : cu_function :=
  if logged then cu_module env K_sample_discrete_logged_old
  else cu_module env K_sample_discrete_old.

(** Lines 101-108 of [sample_discrete_old]: the matrix it samples from. *)
Definition old_densities (env : environment) (in_densities : array) (logged pad : bool)
    : array :=
  if pad then
    if logged then pad_data_mult16 env in_densities 1
    else pad_data_mult16 env in_densities 0
  else in_densities.

(** How many device buffers a call that returns has allocated for
    [densities]: the draws and the destination, and for a host matrix its
    copy on the device.  For a column-major device array the number depends
    on the transposition of [gpustats.util], which is outside the source
    tree, and is left open. *)
Definition fresh_buffers (densities : array) : option nat :=
  match densities with
  | OnHost _ => Some 3%nat
  | OnDevice g => if f_contiguous g then None else Some 2%nat
  end.


(** A world with room for the fair coin's densities and nothing more, and
    one with no room at all. *)
Definition tight_world : world :=
  {| heap := ∅; next_handle := 0; mem_free := 8;
     np_random := {| stream := fun _ => 0%Q; consumed := 0 |}; launched := [] |}.

Definition full_world : world :=
  {| heap := ∅; next_handle := 0; mem_free := 4;
     np_random := {| stream := fun _ => 0%Q; consumed := 0 |}; launched := [] |}.

(** A generator whose first draw is 0 and whose later draws are 3/4, and a
    device with twice the registers of [fermi]. *)
Definition two_draws (i : nat) : Q :=
  match i with
  | O => 0%Q
  | S _ => (3 # 4)%Q
  end.

Definition fermi_more_registers : DeviceInfo :=
  {| compute_cap := (2, 1); max_block_threads := 1024;
     shared_mem := 49152; max_registers := 65536 |}.

(** A device descriptor whose thread limit is below the 32 threads of one
    block row. *)
Definition narrow_device : DeviceInfo :=
  {| compute_cap := (2, 0); max_block_threads := 16;
     shared_mem := 49152; max_registers := 32768 |}.

(** Host matrices without elements: no rows, and rows without entries. *)
Definition no_rows : ndarray := {| shape := (0, 2); rows := [] |}.

Definition empty_rows : ndarray := {| shape := (2, 0); rows := [[]; []] |}.

(** * Properties *)

(** ** Sanity checks of the embedding on a Fermi device *)

Example fermi_thresholds :
  tune_max_threads fermi = 512 /\
  PyFloat.int_lt 39321 (tune_max_smem fermi) = true /\
  PyFloat.int_lt 39322 (tune_max_smem fermi) = false /\
  PyFloat.int_lt 29491 (tune_max_regs fermi) = true /\
  PyFloat.int_lt 29492 (tune_max_regs fermi) = false.
Proof. vm_compute. repeat split. Qed.

Example fermi_tune : _tune_sfm 100 fermi 1000 5 20 = Some ((32, 1), (32, 16, 1)).
Proof. vm_compute. reflexivity. Qed.

Example fair_coin_low :
  fst (sample_discrete fermi_env (OnHost fair_coin) false false (fresh_world (fun _ => 0%Q)))
  = Ok (Copied int32 [0]).
Proof. vm_compute. reflexivity. Qed.

Example fair_coin_high :
  fst (sample_discrete fermi_env (OnHost fair_coin) false false
         (fresh_world (fun _ => (3 # 4)%Q)))
  = Ok (Copied int32 [1]).
Proof. vm_compute. reflexivity. Qed.

(** ** Rounding *)
Module PyFloatFacts.
Import PyFloat.

Lemma bits_bounds m : 0 < m -> 2 ^ (bits m - 1) <= m < 2 ^ bits m.
Proof.
  intros Hm. unfold bits.
  replace (Z.log2 m + 1 - 1) with (Z.log2 m) by lia.
  replace (Z.log2 m + 1) with (Z.succ (Z.log2 m)) by lia.
  now apply Z.log2_spec.
Qed.

Lemma bits_le m k : 0 < k -> 0 <= m < 2 ^ k -> bits m <= k.
Proof.
  intros Hk [H0 Hm]. unfold bits.
  destruct (Z.eq_dec m 0) as [-> | Hne].
  - simpl. lia.
  - assert (Z.log2 m < k) by (apply Z.log2_lt_pow2; lia). lia.
Qed.

Lemma round_pos_exact m e : 0 <= m < 2 ^ prec -> round_pos m e = mk m e.
Proof.
  intros Hm. unfold round_pos.
  assert (bits m <= prec) by (apply bits_le; [unfold prec; lia | exact Hm]).
  replace (bits m - prec <=? 0) with true by (symmetry; apply Z.leb_le; lia).
  reflexivity.
Qed.

(** Renormalising a mantissa of [2 ^ prec] leaves the value alone. *)
Lemma int_lt_renorm L e :
  int_lt L (mk (2 ^ (prec - 1)) (e + 1)) = int_lt L (mk (2 ^ prec) e).
Proof.
  unfold int_lt, prec; cbn [mant expo].
  change (2 ^ (53 - 1)) with (2 ^ 52).
  destruct (Z.leb_spec 0 e), (Z.leb_spec 0 (e + 1)); try lia.
  - rewrite Z.pow_add_r by lia. f_equal. lia.
  - assert (e = -1) as -> by lia. cbn. destruct (Z.ltb_spec L 4503599627370496),
      (Z.ltb_spec (L * 2) 9007199254740992); lia.
  - replace (- e) with (Z.succ (- (e + 1))) by lia.
    rewrite Z.pow_succ_r by lia.
    destruct (Z.ltb_spec (L * 2 ^ (- (e + 1))) (2 ^ 52)),
      (Z.ltb_spec (L * (2 * 2 ^ (- (e + 1)))) (2 ^ 53)); lia.
Qed.

Lemma int_lt_round_pos L m e :
  0 < bits m - prec ->
  int_lt L (round_pos m e) = int_lt L (mk (round_mant m (bits m - prec)) (e + (bits m - prec))).
Proof.
  intros Hs. unfold round_pos.
  replace (bits m - prec <=? 0) with false by (symmetry; apply Z.leb_gt; lia).
  destruct (Z.eqb_spec (round_mant m (bits m - prec)) (2 ^ prec)) as [Heq | Hne];
    [|reflexivity].
  rewrite Heq. apply int_lt_renorm.
Qed.

Lemma of_int_exact i : 0 <= i < 2 ^ prec -> of_int i = mk i 0.
Proof.
  intros Hi. unfold of_int, round.
  replace (i <? 0) with false by (symmetry; apply Z.ltb_ge; lia).
  now apply round_pos_exact.
Qed.

(** Comparing an int with [m * c], for a literal [c] just above
    [num / den]: the rounding never moves the product across an integer
    multiple of [1 / den]. *)
Lemma round_core (num den eps C M L P T half q r : Z) :
  0 < num -> 0 < den -> den <= T -> 0 <= eps -> 2 * eps <= num ->
  den * C = num * (P * T) + eps ->
  0 <= M -> eps * M < P * T ->
  M * C = q * P + r -> 0 <= r < P -> M * C < P * T * P ->
  P = 2 * half -> 0 < half ->
  (L * T <? (if (half <? r) || ((r =? half) && Z.odd q) then q + 1 else q))
  = (den * L <? num * M).
Proof.
  intros Hnum Hden HT Heps Heps2 HC HM HepsM HN Hr Hbits HP Hhalf.
  assert (HPpos : 0 < P) by lia.
  assert (HPT : 0 < P * T) by nia.
  assert (HdN : den * (q * P + r) = num * M * (P * T) + eps * M).
  { rewrite <- HN. replace (den * (M * C)) with (M * (den * C)) by ring.
    rewrite HC. ring. }
  assert (HepsM0 : 0 <= eps * M) by nia.
  destruct (Z.ltb_spec (den * L) (num * M)) as [Hlt | Hge].
  - assert (H1 : (den * L + 1) * (P * T) <= num * M * (P * T)) by nia.
    assert (H2 : den * P <= P * T) by nia.
    assert (H3 : den * ((L * T + 1) * P) <= den * (q * P + r)) by nia.
    assert (H4 : (L * T + 1) * P <= q * P + r) by nia.
    assert (L * T + 1 <= q) by nia.
    apply Z.ltb_lt. destruct (_ || _); lia.
  - apply Z.ltb_ge.
    destruct (Z.eq_dec (den * L) (num * M)) as [Heq | Hne].
    + assert (H1 : den * (q * P + r) = den * (L * T * P) + eps * M).
      { rewrite HdN, <- Heq. ring. }
      assert (H0L : 0 <= L) by nia.
      assert (HLP : L < P).
      { assert (den * (L * T * P) < den * (P * T * P)) by nia.
        assert (L * (T * P) < P * (T * P)) by nia.
        nia. }
      assert (H2 : num * (den * (q * P + r - L * T * P)) = eps * (den * L)).
      { rewrite Heq. nia. }
      assert (H3 : num * (q * P + r - L * T * P) = eps * L) by nia.
      assert (H4 : 0 <= q * P + r - L * T * P) by nia.
      assert (H5 : 2 * (q * P + r - L * T * P) < P) by nia.
      assert (Hq : q = L * T) by nia.
      subst q.
      assert (2 * r < P) by lia.
      replace (half <? r) with false by (symmetry; apply Z.ltb_ge; lia).
      replace (r =? half) with false by (symmetry; apply Z.eqb_neq; lia).
      simpl. lia.
    + assert (H1 : num * M * (P * T) <= (den * L - 1) * (P * T)) by nia.
      assert (H2 : den * (q * P + r) < den * (L * T * P)) by nia.
      assert (H3 : q * P + r < L * T * P) by nia.
      assert (q + 1 <= L * T) by nia.
      destruct (_ || _); lia.
Qed.

Lemma int_lt_round_scaled (num den eps C M L : Z) :
  0 < num -> 0 < den <= 16 -> 0 <= eps <= 2 -> 2 * eps <= num ->
  den * C = num * 2 ^ 53 + eps -> 2 ^ 52 <= C < 2 ^ 53 ->
  0 <= M < 2 ^ 48 ->
  int_lt L (round_pos (M * C) (-53)) = (den * L <? num * M).
Proof.
  intros Hnum Hden Heps Heps2 HC HCr HM.
  assert (Hnd : num < den) by nia.
  destruct (Z.eq_dec M 0) as [-> | HM0].
  { rewrite round_pos_exact by (unfold prec; simpl; lia).
    unfold int_lt; simpl expo; simpl mant.
    change (0 <=? -53) with false. cbv iota.
    destruct (Z.ltb_spec (L * 2 ^ (- -53)) 0), (Z.ltb_spec (den * L) (num * 0)); lia. }
  destruct (Z.eq_dec M 1) as [-> | HM1].
  { rewrite round_pos_exact by (unfold prec; lia).
    unfold int_lt; simpl expo; simpl mant.
    change (0 <=? -53) with false. cbv iota.
    change (- -53) with 53.
    destruct (Z.ltb_spec (L * 2 ^ 53) (1 * C)), (Z.ltb_spec (den * L) (num * 1)); nia. }
  assert (HN : 2 ^ 53 <= M * C < 2 ^ 101).
  { change (2 ^ 101) with (2 ^ 48 * 2 ^ 53). nia. }
  pose proof (bits_bounds (M * C) ltac:(lia)) as Hb.
  assert (Hs1 : 54 <= bits (M * C)).
  { destruct (Z_lt_le_dec (bits (M * C)) 54) as [Hlt|]; [|assumption].
    assert (2 ^ bits (M * C) <= 2 ^ 53) by (apply Z.pow_le_mono_r; lia). lia. }
  assert (Hs2 : bits (M * C) <= 101) by (apply bits_le; lia).
  rewrite int_lt_round_pos by (unfold prec; lia). unfold prec.
  set (s := bits (M * C) - 53) in *.
  unfold int_lt, round_mant; cbn [expo mant].
  replace (0 <=? -53 + s) with false by (symmetry; apply Z.leb_gt; lia).
  replace (- (-53 + s)) with (53 - s) by lia.
  assert (HPT : 2 ^ s * 2 ^ (53 - s) = 2 ^ 53).
  { rewrite <- Z.pow_add_r by lia. f_equal. lia. }
  assert (HP : 2 ^ s = 2 * 2 ^ (s - 1)).
  { rewrite <- Z.pow_succ_r by lia. f_equal. lia. }
  assert (Hhalf : 0 < 2 ^ (s - 1)) by (apply Z.pow_pos_nonneg; lia).
  assert (HT : 32 <= 2 ^ (53 - s)).
  { change 32 with (2 ^ 5). apply Z.pow_le_mono_r; lia. }
  assert (Hbits : M * C < 2 ^ s * 2 ^ (53 - s) * 2 ^ s).
  { rewrite HPT. rewrite <- Z.pow_add_r by lia.
    replace (53 + s) with (bits (M * C)) by lia. apply Hb. }
  apply (round_core num den eps C M L (2 ^ s) (2 ^ (53 - s)) (2 ^ (s - 1))
           (M * C / 2 ^ s) (M * C mod 2 ^ s)); try lia.
  - rewrite HPT. lia.
  - rewrite HPT. nia.
  - rewrite (Z.div_mod (M * C) (2 ^ s)) at 1 by lia. ring.
  - apply Z.mod_pos_bound. lia.
Qed.

Lemma int_lt_0_8 (M L : Z) :
  0 <= M < 2 ^ 48 ->
  int_lt L (mul (of_int M) lit_0_8) = (5 * L <? 4 * M).
Proof.
  intros HM. rewrite of_int_exact by (unfold prec; lia).
  unfold mul, lit_0_8; cbn [mant expo]. unfold round.
  replace (M * 7205759403792794 <? 0) with false by (symmetry; apply Z.ltb_ge; lia).
  change (0 + -53) with (-53).
  apply (int_lt_round_scaled 4 5 2); lia.
Qed.

Lemma int_lt_0_9 (M L : Z) :
  0 <= M < 2 ^ 48 ->
  int_lt L (mul lit_0_9 (of_int M)) = (10 * L <? 9 * M).
Proof.
  intros HM. rewrite of_int_exact by (unfold prec; lia).
  unfold mul, lit_0_9; cbn [mant expo]. unfold round.
  replace (8106479329266893 * M <? 0) with false by (symmetry; apply Z.ltb_ge; lia).
  change (-53 + 0) with (-53). rewrite (Z.mul_comm _ M).
  apply (int_lt_round_scaled 9 10 2); lia.
Qed.

Lemma to_int_0_5 (M : Z) :
  0 <= M < 2 ^ 48 ->
  to_int (mul (of_int M) lit_0_5) = M / 2.
Proof.
  intros HM. rewrite of_int_exact by (unfold prec; lia).
  unfold mul, lit_0_5; cbn [mant expo]. unfold round.
  replace (M * 4503599627370496 <? 0) with false by (symmetry; apply Z.ltb_ge; lia).
  change (0 + -53) with (-53). change 4503599627370496 with (2 ^ 52).
  destruct (Z_lt_le_dec M 2) as [Hsmall | Hbig].
  { rewrite round_pos_exact by (unfold prec; lia).
    unfold to_int; cbn [mant expo]. change (0 <=? -53) with false. cbv iota.
    assert (M = 0 \/ M = 1) as [-> | ->] by lia; reflexivity. }
  assert (HN : 2 ^ 53 <= M * 2 ^ 52 < 2 ^ 100) by lia.
  pose proof (bits_bounds (M * 2 ^ 52) ltac:(lia)) as Hb.
  assert (Hs1 : 54 <= bits (M * 2 ^ 52)).
  { destruct (Z_lt_le_dec (bits (M * 2 ^ 52)) 54) as [Hlt|]; [|assumption].
    assert (2 ^ bits (M * 2 ^ 52) <= 2 ^ 53) by (apply Z.pow_le_mono_r; lia). lia. }
  assert (Hs2 : bits (M * 2 ^ 52) <= 100) by (apply bits_le; lia).
  unfold round_pos, round_mant, prec.
  set (s := bits (M * 2 ^ 52) - 53) in *.
  replace (s <=? 0) with false by (symmetry; apply Z.leb_gt; lia).
  assert (Hsplit : 2 ^ 52 = 2 ^ (52 - s) * 2 ^ s).
  { rewrite <- Z.pow_add_r by lia. f_equal. lia. }
  assert (HPs : 0 < 2 ^ s) by (apply Z.pow_pos_nonneg; lia).
  assert (HK : 0 < 2 ^ (52 - s)) by (apply Z.pow_pos_nonneg; lia).
  assert (Hhalf : 0 < 2 ^ (s - 1)) by (apply Z.pow_pos_nonneg; lia).
  assert (Hq : M * 2 ^ (52 - s) < 2 ^ 53).
  { assert (Hb2 : M * 2 ^ 52 < 2 ^ 53 * 2 ^ s).
    { rewrite <- Z.pow_add_r by lia.
      replace (53 + s) with (bits (M * 2 ^ 52)) by lia. apply Hb. }
    rewrite Hsplit, Z.mul_assoc in Hb2. nia. }
  rewrite Hsplit, Z.mul_assoc.
  rewrite Z.mod_mul, Z.div_mul by lia.
  replace (2 ^ (s - 1) <? 0) with false by (symmetry; apply Z.ltb_ge; lia).
  replace (0 =? 2 ^ (s - 1)) with false by (symmetry; apply Z.eqb_neq; lia).
  cbn [orb andb].
  replace (M * 2 ^ (52 - s) =? 2 ^ 53) with false by (symmetry; apply Z.eqb_neq; lia).
  unfold to_int; cbn [mant expo].
  replace (0 <=? -53 + s) with false by (symmetry; apply Z.leb_gt; lia).
  replace (- (-53 + s)) with (Z.succ (52 - s)) by lia.
  rewrite Z.pow_succ_r by lia.
  rewrite Z.quot_div_nonneg by lia.
  rewrite Z.div_mul_cancel_r by lia.
  reflexivity.
Qed.

End PyFloatFacts.

(** ** The float model against the standard library's IEEE 754 specification *)

Module PyFloatSpec.
Import PyFloat.

Lemma iter_pos_nat {A} (f : A -> A) p x :
  SpecFloat.iter_pos f p x = Nat.iter (Pos.to_nat p) f x.
Proof.
  revert x. induction p as [p IH | p IH |]; intros x; cbn [SpecFloat.iter_pos].
  - rewrite !IH. rewrite Pos2Nat.inj_xI.
    rewrite <- Nat.iter_add. rewrite <- Nat.iter_succ_r.
    f_equal. lia.
  - rewrite !IH. rewrite Pos2Nat.inj_xO.
    rewrite <- Nat.iter_add. f_equal. lia.
  - reflexivity.
Qed.

Lemma digits2_bits p : Z.pos (digits2_pos p) = bits (Z.pos p).
Proof.
  unfold bits. induction p as [p IH | p IH |]; cbn [digits2_pos].
  - rewrite Pos2Z.inj_succ, IH.
    change (Z.pos p~1) with (2 * Z.pos p + 1).
    rewrite Z.log2_succ_double by lia. lia.
  - rewrite Pos2Z.inj_succ, IH.
    change (Z.pos p~0) with (2 * Z.pos p).
    rewrite Z.log2_double by lia. lia.
  - reflexivity.
Qed.

Lemma shr_1_nonneg m r s :
  0 <= m ->
  shr_1 {| shr_m := m; shr_r := r; shr_s := s |}
  = {| shr_m := m / 2; shr_r := Z.odd m; shr_s := r || s |}.
Proof.
  intros Hm. destruct m as [|p|p]; [reflexivity | | lia].
  destruct p as [p|p|]; cbn [shr_1].
  - f_equal. change (Z.pos p~1) with (2 * Z.pos p + 1).
    apply Z.div_unique with 1; lia.
  - f_equal. change (Z.pos p~0) with (2 * Z.pos p).
    apply Z.div_unique with 0; lia.
  - reflexivity.
Qed.

(** The round bit and the sticky bit after [k] right shifts. *)
Lemma low_bits_split m k :
  0 <= m -> 0 < k ->
  m mod 2 ^ k = m mod 2 ^ (k - 1) + 2 ^ (k - 1) * ((m / 2 ^ (k - 1)) mod 2).
Proof.
  intros Hm Hk.
  replace (2 ^ k) with (2 ^ (k - 1) * 2).
  - apply Z.rem_mul_r; [|lia]. apply Z.pow_nonzero; lia.
  - rewrite Z.mul_comm, <- Z.pow_succ_r by lia. f_equal. lia.
Qed.

Lemma shr_iter m k :
  0 <= m ->
  Nat.iter (S k) shr_1 {| shr_m := m; shr_r := false; shr_s := false |}
  = {| shr_m := m / 2 ^ Z.of_nat (S k);
       shr_r := Z.odd (m / 2 ^ Z.of_nat k);
       shr_s := negb (m mod 2 ^ Z.of_nat k =? 0) |}.
Proof.
  intros Hm. induction k as [|k IH].
  - cbn [Nat.iter]. rewrite shr_1_nonneg by assumption.
    change (2 ^ Z.of_nat 1) with 2. change (2 ^ Z.of_nat 0) with 1.
    rewrite Z.div_1_r, Z.mod_1_r. reflexivity.
  - rewrite Nat.iter_succ, IH.
    assert (Hp : 0 < 2 ^ Z.of_nat (S k)) by (apply Z.pow_pos_nonneg; lia).
    rewrite shr_1_nonneg by (apply Z.div_pos; lia).
    f_equal.
    + rewrite Z.div_div by lia.
      f_equal. rewrite (Nat2Z.inj_succ (S k)), Z.pow_succ_r by lia. lia.
    + pose proof (low_bits_split m (Z.of_nat (S k)) Hm ltac:(lia)) as Hsplit.
      replace (Z.of_nat (S k) - 1) with (Z.of_nat k) in Hsplit by lia.
      rewrite Hsplit. rewrite (Zodd_mod (m / 2 ^ Z.of_nat k)).
      assert (Hpk : 0 < 2 ^ Z.of_nat k) by (apply Z.pow_pos_nonneg; lia).
      pose proof (Z.mod_pos_bound m (2 ^ Z.of_nat k) Hpk).
      pose proof (Z.mod_pos_bound (m / 2 ^ Z.of_nat k) 2 ltac:(lia)).
      destruct (Z.eqb_spec ((m / 2 ^ Z.of_nat k) mod 2) 1) as [E1 | E1],
               (Z.eqb_spec (m mod 2 ^ Z.of_nat k) 0) as [E2 | E2],
               (Z.eqb_spec (m mod 2 ^ Z.of_nat k
                            + 2 ^ Z.of_nat k * ((m / 2 ^ Z.of_nat k) mod 2)) 0)
                 as [E3 | E3];
        cbn; try reflexivity; exfalso; nia.
Qed.

Lemma round_nearest_even_mant m s :
  0 <= m -> 0 < s ->
  round_nearest_even (m / 2 ^ s)
    (loc_of_shr_record
       {| shr_m := m / 2 ^ s;
          shr_r := Z.odd (m / 2 ^ (s - 1));
          shr_s := negb (m mod 2 ^ (s - 1) =? 0) |})
  = round_mant m s.
Proof.
  intros Hm Hs. unfold round_mant.
  pose proof (low_bits_split m s Hm Hs) as Hsplit.
  assert (Hh : 0 < 2 ^ (s - 1)) by (apply Z.pow_pos_nonneg; lia).
  pose proof (Z.mod_pos_bound m (2 ^ (s - 1)) Hh) as Hlow.
  pose proof (Z.mod_pos_bound (m / 2 ^ (s - 1)) 2 ltac:(lia)) as Hbit.
  rewrite (Zodd_mod (m / 2 ^ (s - 1))). rewrite <- Z.negb_even.
  set (b := (m / 2 ^ (s - 1)) mod 2) in *.
  set (low := m mod 2 ^ (s - 1)) in *.
  set (half := 2 ^ (s - 1)) in *.
  rewrite Hsplit.
  destruct (Z.eqb_spec b 1) as [Eb | Eb], (Z.eqb_spec low 0) as [El | El];
    cbn [negb loc_of_shr_record round_nearest_even].
  - replace (half <? low + half * b) with false by (symmetry; apply Z.ltb_ge; nia).
    replace (low + half * b =? half) with true by (symmetry; apply Z.eqb_eq; nia).
    cbn [orb andb]. destruct (Z.even (m / 2 ^ s)); reflexivity.
  - replace (half <? low + half * b) with true by (symmetry; apply Z.ltb_lt; nia).
    reflexivity.
  - replace (half <? low + half * b) with false by (symmetry; apply Z.ltb_ge; nia).
    replace (low + half * b =? half) with false by (symmetry; apply Z.eqb_neq; nia).
    reflexivity.
  - replace (half <? low + half * b) with false by (symmetry; apply Z.ltb_ge; nia).
    replace (low + half * b =? half) with false by (symmetry; apply Z.eqb_neq; nia).
    reflexivity.
Qed.

Lemma bits_unique m d : 0 < d -> 2 ^ (d - 1) <= m < 2 ^ d -> bits m = d.
Proof.
  intros Hd Hm. unfold bits.
  assert (0 < m).
  { assert (0 < 2 ^ (d - 1)) by (apply Z.pow_pos_nonneg; lia). lia. }
  rewrite (Z.log2_unique m (d - 1)); [lia | lia |].
  replace (Z.succ (d - 1)) with d by lia. exact Hm.
Qed.

Lemma shr_fexp_shift m e :
  0 < m -> 53 < bits m -> -1021 <= e ->
  shr_fexp 53 1024 m e loc_Exact
  = ({| shr_m := m / 2 ^ (bits m - 53);
        shr_r := Z.odd (m / 2 ^ (bits m - 53 - 1));
        shr_s := negb (m mod 2 ^ (bits m - 53 - 1) =? 0) |},
     e + (bits m - 53)).
Proof.
  intros Hm Hb He. unfold shr_fexp, fexp, emin.
  destruct m as [|n|n]; try lia.
  cbn [Zdigits2 shr_record_of_loc]. rewrite digits2_bits.
  set (d := bits (Z.pos n)) in *.
  rewrite Z.max_l by lia.
  replace (d + e - 53 - e) with (d - 53) by lia.
  destruct (d - 53) as [|p|p] eqn:Hp; try lia.
  cbn [shr]. rewrite iter_pos_nat.
  destruct (Pos2Nat.is_succ p) as [k Hk]. rewrite Hk.
  rewrite shr_iter by lia.
  assert (Hpk : Z.pos p = Z.of_nat (S k)) by lia.
  rewrite <- Hpk. replace (Z.of_nat k) with (Z.pos p - 1) by lia.
  reflexivity.
Qed.

Lemma shr_fexp_canonical q e :
  2 ^ 52 <= q < 2 ^ 53 -> -1074 <= e ->
  shr_fexp 53 1024 q e loc_Exact
  = ({| shr_m := q; shr_r := false; shr_s := false |}, e).
Proof.
  intros Hq He. unfold shr_fexp, fexp, emin.
  destruct q as [|n|n]; try lia.
  cbn [Zdigits2 shr_record_of_loc]. rewrite digits2_bits.
  rewrite (bits_unique (Z.pos n) 53) by lia.
  rewrite Z.max_l by lia.
  replace (53 + e - 53 - e) with 0 by lia. reflexivity.
Qed.

Lemma shr_fexp_carry e :
  -1074 <= e ->
  shr_fexp 53 1024 (2 ^ 53) e loc_Exact
  = ({| shr_m := 2 ^ 52; shr_r := false; shr_s := false |}, e + 1).
Proof.
  intros He. unfold shr_fexp, fexp, emin.
  change (Zdigits2 (2 ^ 53)) with 54.
  rewrite Z.max_l by lia.
  replace (54 + e - 53 - e) with 1 by lia. reflexivity.
Qed.

Lemma round_mant_bounds m :
  0 < m -> 53 < bits m ->
  2 ^ 52 <= round_mant m (bits m - 53) <= 2 ^ 53.
Proof.
  intros Hm Hb. unfold round_mant.
  pose proof (PyFloatFacts.bits_bounds m Hm) as Hbb.
  set (s := bits m - 53) in *.
  assert (Hs : 0 < 2 ^ s) by (apply Z.pow_pos_nonneg; lia).
  assert (Hlo : 2 ^ 52 * 2 ^ s <= m).
  { rewrite <- Z.pow_add_r by lia. replace (52 + s) with (bits m - 1) by lia. apply Hbb. }
  assert (Hhi : m < 2 ^ 53 * 2 ^ s).
  { rewrite <- Z.pow_add_r by lia. replace (53 + s) with (bits m) by lia. apply Hbb. }
  assert (2 ^ 52 <= m / 2 ^ s) by (apply Z.div_le_lower_bound; lia).
  assert (m / 2 ^ s < 2 ^ 53) by (apply Z.div_lt_upper_bound; lia).
  destruct (_ || _); lia.
Qed.

Lemma binary_round_aux_round_pos m e :
  0 < m -> 53 < bits m -> -1021 <= e -> e + (bits m - 53) < 971 ->
  binary_round_aux 53 1024 false m e loc_Exact = to_spec (round_pos m e).
Proof.
  intros Hm Hb He Hhi. unfold binary_round_aux.
  rewrite shr_fexp_shift by assumption. cbn [shr_m].
  replace (bits m - 53 - 1) with ((bits m - 53) - 1) by lia.
  rewrite round_nearest_even_mant by lia.
  pose proof (round_mant_bounds m Hm Hb) as Hq.
  unfold round_pos, prec.
  replace (bits m - 53 <=? 0) with false by (symmetry; apply Z.leb_gt; lia).
  destruct (Z.eqb_spec (round_mant m (bits m - 53)) (2 ^ 53)) as [Heq | Hne].
  - rewrite Heq, shr_fexp_carry by lia. cbn [shr_m].
    change (2 ^ 52) with (Z.pos (2 ^ 52)%positive) at 1.
    cbv iota beta.
    replace (e + (bits m - 53) + 1 <=? 1024 - 53) with true
      by (symmetry; apply Z.leb_le; lia).
    reflexivity.
  - rewrite shr_fexp_canonical by lia. cbn [shr_m].
    unfold to_spec; cbn [mant expo].
    destruct (round_mant m (bits m - 53)) as [|q|q]; try lia.
    replace (e + (bits m - 53) <=? 1024 - 53) with true
      by (symmetry; apply Z.leb_le; lia).
    reflexivity.
Qed.

Lemma bits_mul_pow2 m j : 0 < m -> 0 <= j -> bits (m * 2 ^ j) = bits m + j.
Proof.
  intros Hm Hj. unfold bits. rewrite Z.log2_mul_pow2 by lia. lia.
Qed.

(** Scaling the mantissa by a power of two does not change the rounding. *)
Lemma round_mant_scale m s j :
  0 < s -> 0 <= j ->
  round_mant (m * 2 ^ j) (s + j) = round_mant m s.
Proof.
  intros Hs Hj. unfold round_mant.
  assert (Hpj : 0 < 2 ^ j) by (apply Z.pow_pos_nonneg; lia).
  assert (Hps : 0 < 2 ^ s) by (apply Z.pow_pos_nonneg; lia).
  assert (Hph : 0 < 2 ^ (s - 1)) by (apply Z.pow_pos_nonneg; lia).
  rewrite (Z.pow_add_r 2 s j) by lia.
  rewrite Z.div_mul_cancel_r by lia.
  rewrite Z.mul_mod_distr_r by lia.
  replace (s + j - 1) with (s - 1 + j) by lia.
  rewrite (Z.pow_add_r 2 (s - 1) j) by lia.
  replace (2 ^ (s - 1) * 2 ^ j <? m mod 2 ^ s * 2 ^ j) with (2 ^ (s - 1) <? m mod 2 ^ s).
  2:{ destruct (Z.ltb_spec (2 ^ (s - 1)) (m mod 2 ^ s)),
        (Z.ltb_spec (2 ^ (s - 1) * 2 ^ j) (m mod 2 ^ s * 2 ^ j)); try reflexivity; nia. }
  replace (m mod 2 ^ s * 2 ^ j =? 2 ^ (s - 1) * 2 ^ j) with (m mod 2 ^ s =? 2 ^ (s - 1)).
  2:{ destruct (Z.eqb_spec (m mod 2 ^ s) (2 ^ (s - 1))),
        (Z.eqb_spec (m mod 2 ^ s * 2 ^ j) (2 ^ (s - 1) * 2 ^ j)); try reflexivity; nia. }
  reflexivity.
Qed.

Lemma round_pos_scale m e j :
  0 < m -> 53 <= bits m -> 0 <= j ->
  round_pos (m * 2 ^ j) (e - j) = round_pos m e.
Proof.
  intros Hm Hb Hj. unfold round_pos, prec.
  rewrite bits_mul_pow2 by assumption.
  assert (Hpj : 0 < 2 ^ j) by (apply Z.pow_pos_nonneg; lia).
  destruct (Z.eq_dec (bits m) 53) as [Hb53 | Hb53].
  - rewrite Hb53. change (53 - 53 <=? 0) with true. cbv iota.
    destruct (Z.eq_dec j 0) as [-> | Hj0].
    + change (53 + 0 - 53 <=? 0) with true. cbv iota.
      f_equal; [change (2 ^ 0) with 1|]; lia.
    + replace (53 + j - 53) with j by lia.
      replace (j <=? 0) with false by (symmetry; apply Z.leb_gt; lia).
      unfold round_mant.
      rewrite Z.mod_mul, Z.div_mul by lia.
      assert (Hph : 0 < 2 ^ (j - 1)) by (apply Z.pow_pos_nonneg; lia).
      replace (2 ^ (j - 1) <? 0) with false by (symmetry; apply Z.ltb_ge; lia).
      replace (0 =? 2 ^ (j - 1)) with false by (symmetry; apply Z.eqb_neq; lia).
      cbn [orb andb].
      pose proof (PyFloatFacts.bits_bounds m Hm) as Hbb. rewrite Hb53 in Hbb.
      replace (m =? 2 ^ 53) with false by (symmetry; apply Z.eqb_neq; lia).
      f_equal. lia.
  - set (s := bits m - 53) in *.
    replace (bits m + j - 53) with (s + j) by lia.
    replace (s + j <=? 0) with false by (symmetry; apply Z.leb_gt; lia).
    replace (s <=? 0) with false by (symmetry; apply Z.leb_gt; lia).
    rewrite round_mant_scale by lia.
    replace (e - j + (s + j)) with (e + s) by lia.
    replace (e - j + (s + j) + 1) with (e + s + 1) by lia. reflexivity.
Qed.

Lemma to_spec_pos m e :
  0 < m -> to_spec (mk m e) = S754_finite false (Z.to_pos m) e.
Proof. intros Hm. unfold to_spec; cbn [mant expo]. destruct m; try lia. reflexivity. Qed.

(** [float(i)] in the standard library's specification: the mantissa is
    shifted left to 53 bits. *)
Lemma spec_of_int_normal i :
  0 < i < 2 ^ 53 ->
  spec_of_int i = to_spec (mk (i * 2 ^ (53 - bits i)) (bits i - 53)).
Proof.
  intros Hi. unfold spec_of_int, binary_normalize.
  destruct i as [|p|p]; try lia.
  unfold binary_round, fexp, emin. rewrite digits2_bits.
  pose proof (PyFloatFacts.bits_bounds (Z.pos p) ltac:(lia)) as Hbb.
  assert (Hb1 : 1 <= bits (Z.pos p)).
  { unfold bits. pose proof (Z.log2_nonneg (Z.pos p)). lia. }
  assert (Hb2 : bits (Z.pos p) <= 53).
  { destruct (Z_lt_le_dec 53 (bits (Z.pos p))) as [Hgt|]; [|assumption].
    assert (2 ^ 53 <= 2 ^ (bits (Z.pos p) - 1)) by (apply Z.pow_le_mono_r; lia). lia. }
  set (d := bits (Z.pos p)) in *.
  rewrite Z.max_l by lia.
  assert (Hshl : exists mz, shl_align p 0 (d + 0 - 53) = (mz, d - 53) /\
                            Z.pos mz = Z.pos p * 2 ^ (53 - d)).
  { unfold shl_align. destruct (d + 0 - 53 - 0) as [|k|k] eqn:Hk; try lia.
    - exists p. split; [f_equal; lia|]. replace (53 - d) with 0 by lia. lia.
    - exists (shift_pos k p). split; [unfold shift_pos; f_equal; lia|].
      rewrite shift_pos_correct. replace (53 - d) with (Z.pos k) by lia.
      rewrite Z.mul_comm. reflexivity. }
  destruct Hshl as (mz & -> & Hmz).
  assert (Hmzb : 2 ^ 52 <= Z.pos mz < 2 ^ 53).
  { rewrite Hmz.
    assert (Hsplit53 : 2 ^ 53 = 2 ^ d * 2 ^ (53 - d)).
    { rewrite <- Z.pow_add_r by lia. f_equal. lia. }
    assert (Hsplit52 : 2 ^ 52 = 2 ^ (d - 1) * 2 ^ (53 - d)).
    { rewrite <- Z.pow_add_r by lia. f_equal. lia. }
    assert (0 < 2 ^ (53 - d)) by (apply Z.pow_pos_nonneg; lia).
    rewrite Hsplit53, Hsplit52. nia. }
  unfold binary_round_aux.
  rewrite shr_fexp_canonical by lia.
  cbn [shr_m loc_of_shr_record round_nearest_even].
  rewrite shr_fexp_canonical by lia. cbn [shr_m].
  replace (d - 53 <=? 1024 - 53) with true by (symmetry; apply Z.leb_le; lia).
  rewrite <- Hmz. reflexivity.
Qed.

(** On device attributes, the product of [_tune_sfm]'s float model is the
    product of the standard library's binary64 specification. *)
Lemma mul_of_int_spec i c :
  0 <= i < 2 ^ 48 -> 2 ^ 52 <= c < 2 ^ 53 ->
  to_spec (mul (of_int i) (mk c (-53)))
  = spec_mul (spec_of_int i) (to_spec (mk c (-53))).
Proof.
  intros Hi Hc.
  destruct (Z.eq_dec i 0) as [-> | Hi0].
  { rewrite to_spec_pos by lia. reflexivity. }
  assert (Hb1 : 1 <= bits i).
  { unfold bits. pose proof (Z.log2_nonneg i). lia. }
  assert (Hb2 : bits i <= 48).
  { pose proof (PyFloatFacts.bits_bounds i ltac:(lia)) as Hbb.
    destruct (Z_lt_le_dec 48 (bits i)) as [Hgt|]; [|assumption].
    assert (2 ^ 48 <= 2 ^ (bits i - 1)) by (apply Z.pow_le_mono_r; lia). lia. }
  rewrite spec_of_int_normal by lia.
  assert (Hj : 0 < 2 ^ (53 - bits i)) by (apply Z.pow_pos_nonneg; lia).
  rewrite !to_spec_pos by lia.
  unfold spec_mul, SFmul. cbn [xorb].
  rewrite Pos2Z.inj_mul, !Z2Pos.id by lia.
  assert (Hbc : bits c = 53) by (apply bits_unique; lia).
  assert (Hbic : 53 <= bits (i * c)).
  { pose proof (PyFloatFacts.bits_bounds (i * c) ltac:(nia)) as Hbb.
    destruct (Z_lt_le_dec (bits (i * c)) 53) as [Hlt|]; [|assumption].
    assert (2 ^ bits (i * c) <= 2 ^ 52) by (apply Z.pow_le_mono_r; lia). nia. }
  assert (Hbic2 : bits (i * c) <= 101).
  { pose proof (PyFloatFacts.bits_bounds (i * c) ltac:(nia)) as Hbb.
    destruct (Z_lt_le_dec 101 (bits (i * c))) as [Hgt|]; [|assumption].
    assert (2 ^ 101 <= 2 ^ (bits (i * c) - 1)) by (apply Z.pow_le_mono_r; lia).
    change (2 ^ 101) with (2 ^ 48 * 2 ^ 53) in *. nia. }
  replace (i * 2 ^ (53 - bits i) * c) with (i * c * 2 ^ (53 - bits i)) by ring.
  rewrite binary_round_aux_round_pos.
  - replace (bits i - 53 + -53) with (-53 - (53 - bits i)) by lia.
    rewrite round_pos_scale by (try lia; nia).
    rewrite PyFloatFacts.of_int_exact by (unfold prec; lia).
    unfold mul, round; cbn [mant expo].
    replace (i * c <? 0) with false by (symmetry; apply Z.ltb_ge; nia).
    reflexivity.
  - nia.
  - rewrite bits_mul_pow2 by (try lia; nia). lia.
  - lia.
  - rewrite bits_mul_pow2 by (try lia; nia). lia.
Qed.

Lemma products_agree_with_spec i : 0 <= i < 2 ^ 48 -> agrees_with_spec i.
Proof.
  intros Hi. unfold agrees_with_spec, lit_0_8, lit_0_9, lit_0_5.
  split; [|split].
  - apply mul_of_int_spec; lia.
  - pose proof (mul_of_int_spec i 8106479329266893 Hi ltac:(lia)) as H.
    unfold mul in *. cbn [mant expo] in *.
    rewrite Z.mul_comm, Z.add_comm, H.
    unfold spec_mul, SFmul, to_spec; cbn [mant expo].
    destruct (spec_of_int i) as [[] | [] | | [] m e]; try reflexivity.
    all: cbn [xorb]; rewrite Pos.mul_comm, Z.add_comm; reflexivity.
  - apply mul_of_int_spec; lia.
Qed.

End PyFloatSpec.

(** ** The planner *)

Section Planner.

Variable info : DeviceInfo.
Variables stride func_regs : Z.

Lemma int_lt_mono (i j : Z) (f : PyFloat.float) :
  i <= j -> PyFloat.int_lt j f = true -> PyFloat.int_lt i f = true.
Proof.
  unfold PyFloat.int_lt. intros Hij.
  destruct (0 <=? PyFloat.expo f).
  - rewrite !Z.ltb_lt. lia.
  - rewrite !Z.ltb_lt.
    assert (0 <= 2 ^ (- PyFloat.expo f)) by (apply Z.pow_nonneg; lia).
    nia.
Qed.

Lemma tune_xdim_cases : tune_xdim info = 16 \/ tune_xdim info = 32.
Proof. unfold tune_xdim. destruct (_ =? _); auto. Qed.

Lemma tune_ok_threads ydim :
  tune_ok info stride func_regs ydim = true ->
  tune_xdim info * ydim <= tune_max_threads info.
Proof.
  unfold tune_ok, sfm_config_ok. rewrite !andb_true_iff, Z.leb_le. tauto.
Qed.

Lemma tune_ok_mono y y' :
  0 <= func_regs -> y' <= y ->
  tune_ok info stride func_regs y = true ->
  tune_ok info stride func_regs y' = true.
Proof.
  intros Hregs Hy. unfold tune_ok, sfm_config_ok.
  rewrite !andb_true_iff, !Z.leb_le. intros [[Hs Hr] Ht].
  destruct tune_xdim_cases as [Hx | Hx]; rewrite Hx in *;
    (repeat split; [assumption | eapply int_lt_mono; [|exact Hr]; nia | lia]).
Qed.

Lemma tune_loop_least ok bound :
  (forall z, bound <= z -> ok z = false) ->
  forall fuel ydim, (Z.to_nat (bound - ydim) < fuel)%nat ->
  exists r, tune_loop fuel ok ydim = Some r /\ ydim <= r /\ ok r = false /\
            forall z, ydim <= z < r -> ok z = true.
Proof.
  intros Hstop. induction fuel as [|fuel IH]; intros ydim Hfuel; [lia|].
  cbn [tune_loop]. destruct (ok ydim) eqn:Hok.
  - assert (ydim < bound).
    { destruct (Z_lt_le_dec ydim bound); [assumption|].
      rewrite Hstop in Hok by assumption. discriminate. }
    destruct (IH (ydim + 1) ltac:(lia)) as (r & Hr & Hle & Hfail & Hbelow).
    exists r. repeat split; [assumption | lia | assumption |].
    intros z Hz. destruct (Z.eq_dec z ydim) as [-> | ?]; [assumption|].
    apply Hbelow. lia.
  - exists ydim. repeat split; [lia | assumption | intros; lia].
Qed.

Lemma tune_ok_stops z :
  Z.max 2 (tune_max_threads info + 1) <= z ->
  tune_ok info stride func_regs z = false.
Proof.
  intros Hz. destruct (tune_ok info stride func_regs z) eqn:Hok; [|reflexivity].
  apply tune_ok_threads in Hok.
  destruct tune_xdim_cases as [Hx | Hx]; rewrite Hx in Hok; lia.
Qed.

(** The search returns, and what it returns is one less than the first
    [ydim >= 2] at which the condition of the loop fails. *)
Lemma tune_sfm_returns n extra :
  exists ydim,
    _tune_sfm (tune_fuel info + extra) info n stride func_regs
      = Some ((n / tune_xdim info + 1, 1), (tune_xdim info, ydim, 1)) /\
    1 <= ydim /\
    tune_ok info stride func_regs (ydim + 1) = false /\
    forall y, 2 <= y <= ydim -> tune_ok info stride func_regs y = true.
Proof.
  destruct (tune_loop_least (tune_ok info stride func_regs)
              (Z.max 2 (tune_max_threads info + 1))
              tune_ok_stops
              (tune_fuel info + extra) 2) as (r & Hr & Hle & Hfail & Hbelow).
  { unfold tune_fuel. lia. }
  exists (r - 1). unfold _tune_sfm. rewrite Hr.
  repeat split; [lia | | intros; apply Hbelow; lia].
  replace (r - 1 + 1) with r by lia. assumption.
Qed.

Lemma tune_ok_exact ydim :
  c_int_limits info ->
  tune_ok info stride func_regs ydim
  = (5 * (4 * (tune_xdim info * stride + tune_xdim info)) <? 4 * shared_mem info)
    && (10 * (func_regs * ydim * tune_xdim info) <? 9 * max_registers info)
    && (tune_xdim info * ydim <=? max_block_threads info / 2).
Proof.
  intros (Ht & Hs & Hr).
  unfold tune_ok, sfm_config_ok, tune_max_smem, tune_max_regs, tune_max_threads.
  rewrite PyFloatFacts.int_lt_0_8, PyFloatFacts.int_lt_0_9, PyFloatFacts.to_int_0_5 by lia.
  rewrite Z.mul_1_l. reflexivity.
Qed.

End Planner.

(** ** Claims about the planner *)

(** C1, as stated, fails.  For 100 rows of 2000 categories on a Fermi
    device the legacy path asks for 256256 bytes of shared memory where the
    device has 49152. *)
Lemma old_design_exceeds_shared_memory :
  exists l,
    sample_discrete_old_design (tune_fuel fermi) fermi 100 2000 20 = Some l /\
    shared l = 256256 /\ shared_mem fermi = 49152 /\
    ~ within_limits fermi (block_x (block l)) 100 l.
Proof.
  eexists. split; [vm_compute; reflexivity|].
  split; [reflexivity|]. split; [reflexivity|].
  unfold within_limits. cbn. lia.
Qed.

(** The thread limit can be exceeded on the legacy path as well: on a
    descriptor that allows 16 threads in a block, [_tune_sfm] still returns
    a block of 32 by 1. *)
Example old_design_exceeds_thread_limit :
  exists l,
    sample_discrete_old_design (tune_fuel narrow_device) narrow_device 100 5 20 = Some l /\
    block l = (32, 1, 1) /\ max_block_threads narrow_device = 16 /\
    shared l <= shared_mem narrow_device /\
    ~ within_limits narrow_device (block_x (block l)) 100 l.
Proof.
  eexists. split; [vm_compute; reflexivity|].
  split; [reflexivity|]. split; [reflexivity|].
  split; [cbn; lia|]. unfold within_limits. cbn. lia.
Qed.

(** C1, amended.  For [n >= 1] and [k >= 1] both paths return a geometry
    whose grid times the rows of a block exceeds [n] ([blockDim.y = 16] rows
    on the fixed path, [blockDim.x] rows on the legacy path), on every
    device.  On the fixed path the block fits the thread limit exactly when
    that limit is at least 256, and the shared memory fits exactly when the
    device has the 1216 or 2240 bytes asked for.  On the legacy path the
    shared memory fits exactly when the device has the
    [4 * (x * stride + x)] bytes asked for, whatever [ydim] the search
    returns; with device attributes in the C int range this is so whenever
    the shared-memory test of the loop condition holds, and the block fits
    the thread limit exactly when that limit is at least the [x] (16 or 32)
    of the search.  In particular both fit whenever the loop condition
    holds at [ydim = 2]. *)
Theorem launch_geometry_bounds info n k func_regs extra :
  1 <= n -> 1 <= k ->
  (let l := sample_discrete_design info n in
   n < fst (grid l) * block_y (block l) /\
   (block_x (block l) * block_y (block l) <= max_block_threads info
    <-> 256 <= max_block_threads info) /\
   (shared l <= shared_mem info
    <-> (if max_block_threads info <? 1024 then 1216 else 2240) <= shared_mem info)) /\
  (exists l,
     sample_discrete_old_design (tune_fuel info + extra) info n k func_regs = Some l /\
     n < fst (grid l) * block_x (block l) /\
     (shared l <= shared_mem info
      <-> 4 * (tune_xdim info * old_stride k + tune_xdim info) <= shared_mem info) /\
     (c_int_limits info ->
      (block_x (block l) * block_y (block l) <= max_block_threads info
       <-> tune_xdim info <= max_block_threads info) /\
      (PyFloat.int_lt (4 * (tune_xdim info * old_stride k + 1 * tune_xdim info))
         (tune_max_smem info) = true ->
       shared l <= shared_mem info) /\
      (tune_ok info (old_stride k) func_regs 2 = true ->
       block_x (block l) * block_y (block l) <= max_block_threads info /\
       shared l <= shared_mem info))).
Proof.
  intros Hn Hk. split.
  - unfold sample_discrete_design. cbn.
    destruct (Z.ltb_spec (max_block_threads info) 1024); cbn;
      Z.div_mod_to_equations; lia.
  - destruct (tune_sfm_returns info (old_stride k) func_regs n extra)
      as (ydim & Hret & Hy1 & Hfail & Hbelow).
    unfold sample_discrete_old_design. rewrite Hret.
    eexists. split; [reflexivity|]. cbn.
    split; [|split].
    + destruct (tune_xdim_cases info) as [-> | ->]; Z.div_mod_to_equations; lia.
    + rewrite Z.mul_1_l. reflexivity.
    + intros Hlim.
      assert (Hthreads : tune_xdim info <= max_block_threads info ->
                         tune_xdim info * ydim <= max_block_threads info).
      { intros Hx. destruct (Z.eq_dec ydim 1) as [-> | ?]; [lia|].
        specialize (Hbelow ydim ltac:(lia)).
        rewrite tune_ok_exact in Hbelow by assumption.
        apply andb_true_iff in Hbelow as [_ Ht]. apply Z.leb_le in Ht.
        destruct Hlim as (? & ? & ?). Z.div_mod_to_equations. lia. }
      assert (Hshared : PyFloat.int_lt (4 * (tune_xdim info * old_stride k + 1 * tune_xdim info))
                          (tune_max_smem info) = true ->
                        4 * (tune_xdim info * old_stride k + 1 * tune_xdim info)
                        <= shared_mem info).
      { unfold tune_max_smem. destruct Hlim as (? & ? & ?).
        rewrite PyFloatFacts.int_lt_0_8 by lia. rewrite Z.ltb_lt. lia. }
      split; [|split].
      * split; [|exact Hthreads].
        destruct (tune_xdim_cases info) as [-> | ->]; nia.
      * exact Hshared.
      * intros Hok2. unfold tune_ok, sfm_config_ok in Hok2.
        apply andb_true_iff in Hok2 as [Hok2 Ht].
        apply andb_true_iff in Hok2 as [Hs _].
        split; [|apply Hshared; exact Hs].
        apply Hthreads. apply Z.leb_le in Ht. unfold tune_max_threads in Ht.
        destruct Hlim as (? & ? & ?).
        rewrite PyFloatFacts.to_int_0_5 in Ht by lia.
        Z.div_mod_to_equations. lia.
Qed.

Lemma launch_geometry_bounds_witness :
  (let l := sample_discrete_design fermi 1000 in
   1000 < fst (grid l) * block_y (block l) /\
   (block_x (block l) * block_y (block l) <= max_block_threads fermi
    <-> 256 <= max_block_threads fermi) /\
   (shared l <= shared_mem fermi
    <-> (if max_block_threads fermi <? 1024 then 1216 else 2240) <= shared_mem fermi)) /\
  (exists l,
     sample_discrete_old_design (tune_fuel fermi + 0) fermi 1000 5 20 = Some l /\
     1000 < fst (grid l) * block_x (block l) /\
     (shared l <= shared_mem fermi
      <-> 4 * (tune_xdim fermi * old_stride 5 + tune_xdim fermi) <= shared_mem fermi) /\
     (c_int_limits fermi ->
      (block_x (block l) * block_y (block l) <= max_block_threads fermi
       <-> tune_xdim fermi <= max_block_threads fermi) /\
      (PyFloat.int_lt (4 * (tune_xdim fermi * old_stride 5 + 1 * tune_xdim fermi))
         (tune_max_smem fermi) = true ->
       shared l <= shared_mem fermi) /\
      (tune_ok fermi (old_stride 5) 20 2 = true ->
       block_x (block l) * block_y (block l) <= max_block_threads fermi /\
       shared l <= shared_mem fermi))).
Proof. apply (launch_geometry_bounds fermi 1000 5 20 0); lia. Defined.

(** C2, as stated, fails.  With a stride of 2001 on a Fermi device the loop
    condition is false for every [ydim]; the search still returns
    [ydim = 1], where the condition does not hold. *)
Lemma tune_returns_infeasible_ydim :
  _tune_sfm (tune_fuel fermi) fermi 100 2001 20 = Some ((4, 1), (32, 1, 1)) /\
  tune_ok fermi 2001 20 1 = false.
Proof. vm_compute. split; reflexivity. Qed.

(** C2, amended.  For [n >= 1], every stride and a register count that is
    not negative, [_tune_sfm] returns, and the loop condition fails just
    above the [ydim] it returns.  When the condition holds at [ydim = 2],
    the returned [ydim] is the largest feasible one: the condition holds at
    it and below, and fails everywhere above.  When the condition already
    fails at 2, the search returns 1 without having tested it. *)
Theorem tune_largest_feasible info n stride func_regs extra :
  1 <= n -> 0 <= func_regs ->
  exists g ydim,
    _tune_sfm (tune_fuel info + extra) info n stride func_regs
      = Some (g, (tune_xdim info, ydim, 1)) /\
    tune_ok info stride func_regs (ydim + 1) = false /\
    (tune_ok info stride func_regs 2 = true ->
       2 <= ydim /\
       (forall y, y <= ydim -> tune_ok info stride func_regs y = true) /\
       (forall y, ydim < y -> tune_ok info stride func_regs y = false)) /\
    (tune_ok info stride func_regs 2 = false -> ydim = 1).
Proof.
  intros Hn Hregs.
  destruct (tune_sfm_returns info stride func_regs n extra)
    as (ydim & Hret & Hy1 & Hfail & Hbelow).
  exists (n / tune_xdim info + 1, 1), ydim.
  split; [exact Hret|]. split; [exact Hfail|]. split.
  - intros Hok2.
    assert (Hy2 : 2 <= ydim).
    { destruct (Z.eq_dec ydim 1) as [-> | ?]; [|lia].
      change (1 + 1) with 2 in Hfail. congruence. }
    split; [exact Hy2|]. split.
    + intros y Hy. apply (tune_ok_mono info stride func_regs ydim y Hregs Hy).
      apply Hbelow. lia.
    + intros y Hy.
      destruct (tune_ok info stride func_regs y) eqn:Hoky; [|reflexivity].
      rewrite (tune_ok_mono info stride func_regs y (ydim + 1) Hregs) in Hfail;
        [discriminate | lia | exact Hoky].
  - intros Hno2.
    destruct (Z.eq_dec ydim 1) as [-> | Hne]; [reflexivity|].
    rewrite Hbelow in Hno2 by lia. discriminate.
Qed.

Lemma tune_largest_feasible_witness :
  exists g ydim,
    _tune_sfm (tune_fuel fermi + 0) fermi 1000 5 20
      = Some (g, (tune_xdim fermi, ydim, 1)) /\
    tune_ok fermi 5 20 (ydim + 1) = false /\
    (tune_ok fermi 5 20 2 = true ->
       2 <= ydim /\
       (forall y, y <= ydim -> tune_ok fermi 5 20 y = true) /\
       (forall y, ydim < y -> tune_ok fermi 5 20 y = false)) /\
    (tune_ok fermi 5 20 2 = false -> ydim = 1).
Proof. apply (tune_largest_feasible fermi 1000 5 20 0); lia. Defined.

(** C3, as stated, fails.  For a single row the fixed path launches one
    block, where [ceil(1 / 16) + 1] is two. *)
Lemma grid_is_not_ceil_plus_one :
  fst (grid (sample_discrete_design fermi 1)) = 1 /\ ceil_div 1 16 + 1 = 2.
Proof. vm_compute. split; reflexivity. Qed.

(** C3, amended.  The grid x-dimension is [floor(n / 16) + 1] on the fixed
    path, which handles 16 rows in a block, and [floor(n / x) + 1] on the
    legacy path; that is [ceil + 1] only when the divisor divides [n]. *)
Theorem grid_is_floor_plus_one info n stride func_regs extra :
  (fst (grid (sample_discrete_design info n)) = n / 16 + 1 /\
   block_y (block (sample_discrete_design info n)) = 16) /\
  (exists b,
     _tune_sfm (tune_fuel info + extra) info n stride func_regs
       = Some ((n / block_x b + 1, 1), b)) /\
  (forall y, 0 < y ->
     (n / y + 1 = ceil_div n y + 1 <-> n mod y = 0) /\
     (n mod y <> 0 -> n / y + 1 = ceil_div n y)).
Proof.
  split; [split; reflexivity|]. split.
  - destruct (tune_sfm_returns info stride func_regs n extra) as (ydim & Hret & _).
    exists (tune_xdim info, ydim, 1). exact Hret.
  - intros y Hy. unfold ceil_div. split; [split|]; intros H.
    + Z.div_mod_to_equations. nia.
    + Z.div_mod_to_equations. nia.
    + Z.div_mod_to_equations. nia.
Qed.

(** C4.  On the fixed path, for every device and every [n], the block
    x-dimension is 32 when the device allows at least 1024 threads in a
    block and 16 otherwise, the y-dimension is 16, and the shared memory
    asked for is [4 * ((x + 1) * y + 2 * y)] bytes. *)
Theorem fixed_block_design info n :
  let l := sample_discrete_design info n in
  block_x (block l) = (if 1024 <=? max_block_threads info then 32 else 16) /\
  block_y (block l) = 16 /\
  shared l = 4 * ((block_x (block l) + 1) * block_y (block l) + 2 * block_y (block l)).
Proof.
  unfold sample_discrete_design, block_x, block_y. cbn.
  destruct (Z.ltb_spec (max_block_threads info) 1024),
           (Z.leb_spec 1024 (max_block_threads info)); try lia; repeat split.
Qed.

(** C5.  With device attributes in the C int range, the loop condition of
    [_tune_sfm] at [(x, ydim)] holds exactly when
    [4 * (x * stride + x) < 0.8 * shared_mem],
    [func_regs * x * ydim < 0.9 * max_registers] and
    [x * ydim <= 0.5 * max_block_threads] hold as inequalities between
    rationals, where [x] is 16 for compute capability 1 and 32 otherwise
    and [stride] is [k] rounded up to an odd number. *)
Theorem feasibility_predicate_exact info k func_regs ydim :
  c_int_limits info ->
  let x := if fst (compute_cap info) =? 1 then 16 else 32 in
  let stride := old_stride k in
  tune_xdim info = x /\
  (Z.odd stride = true /\ k <= stride <= k + 1) /\
  (sfm_config_ok x ydim stride func_regs
     (tune_max_regs info) (tune_max_smem info) (tune_max_threads info) = true
   <->
   (inject_Z (4 * (x * stride + x)) < (8 # 10) * inject_Z (shared_mem info))%Q /\
   (inject_Z (func_regs * x * ydim) < (9 # 10) * inject_Z (max_registers info))%Q /\
   (inject_Z (x * ydim) <= (5 # 10) * inject_Z (max_block_threads info))%Q).
Proof.
  intros Hlim x stride.
  split; [reflexivity|]. split.
  - unfold stride, old_stride.
    destruct (Z.eqb_spec (k mod 2) 0) as [H0 | H1].
    + split; [|lia]. rewrite Zodd_mod. apply Z.eqb_eq.
      Z.div_mod_to_equations. lia.
    + split; [|lia]. rewrite Zodd_mod. apply Z.eqb_eq.
      Z.div_mod_to_equations. lia.
  - pose proof (tune_ok_exact info stride func_regs ydim Hlim) as Hex.
    unfold tune_ok in Hex. change (tune_xdim info) with x in Hex. rewrite Hex.
    rewrite !andb_true_iff, !Z.ltb_lt, Z.leb_le.
    unfold Qlt, Qle. cbn [Qnum Qden Qmult inject_Z].
    assert (Hx : x = 16 \/ x = 32) by (unfold x; destruct (_ =? _); auto).
    clearbody x stride.
    destruct Hx as [-> | ->];
      (split; [intros [[H1 H2] H3] | intros (H1 & H2 & H3)];
       repeat split; Z.div_mod_to_equations; lia).
Qed.

Lemma feasibility_predicate_exact_witness :
  let x := if fst (compute_cap fermi) =? 1 then 16 else 32 in
  let stride := old_stride 4 in
  tune_xdim fermi = x /\
  (Z.odd stride = true /\ 4 <= stride <= 4 + 1) /\
  (sfm_config_ok x 16 stride 20
     (tune_max_regs fermi) (tune_max_smem fermi) (tune_max_threads fermi) = true
   <->
   (inject_Z (4 * (x * stride + x)) < (8 # 10) * inject_Z (shared_mem fermi))%Q /\
   (inject_Z (20 * x * 16) < (9 # 10) * inject_Z (max_registers fermi))%Q /\
   (inject_Z (x * 16) <= (5 # 10) * inject_Z (max_block_threads fermi))%Q).
Proof.
  apply (feasibility_predicate_exact fermi 4 20 16).
  unfold c_int_limits. cbn. lia.
Defined.

(** C9.  For [n >= 1], [stride >= 1] and every register count, [_tune_sfm]
    returns once it has fuel for the thread limit, and the block
    y-dimension it returns is at least 1; it is exactly 1 when the loop
    condition already fails at [ydim = 2]. *)
Theorem tune_terminates_ydim_positive info n stride func_regs extra :
  1 <= n -> 1 <= stride ->
  exists g b,
    _tune_sfm (tune_fuel info + extra) info n stride func_regs = Some (g, b) /\
    1 <= block_y b /\
    (tune_ok info stride func_regs 2 = false -> block_y b = 1).
Proof.
  intros _ _.
  destruct (tune_sfm_returns info stride func_regs n extra)
    as (ydim & Hret & Hy1 & Hfail & Hbelow).
  do 2 eexists. split; [exact Hret|]. cbn. split; [exact Hy1|].
  intros Hno2. destruct (Z.eq_dec ydim 1) as [-> | Hne]; [reflexivity|].
  rewrite Hbelow in Hno2 by lia. discriminate.
Qed.

Lemma tune_terminates_ydim_positive_witness :
  exists g b,
    _tune_sfm (tune_fuel fermi + 0) fermi 100 2001 20 = Some (g, b) /\
    1 <= block_y b /\
    (tune_ok fermi 2001 20 2 = false -> block_y b = 1).
Proof. apply (tune_terminates_ydim_positive fermi 100 2001 20 0); lia. Defined.

(** ** Claims about the facade *)

(** Symbolic execution of a sampling call recorded in [H]: the choices made
    on [pad] and [logged] are kept abstract, every other step is split into
    its outcomes. *)
Ltac abstract_choices H :=
  unfold sample_discrete, sample_discrete_old in H;
  repeat match type of H with
         | context [if ?c then ?a else ?b] =>
             is_var c;
             let v := fresh "choice" in
             remember (if c then a else b) as v eqn:Hv in H; clear Hv
         end.

Ltac run_facade H :=
  abstract_choices H;
  unfold prep_data, to_gpu, util_transpose, finish, leave, to_gpu_draws, gpu_empty,
    mbind, M_bind, bind, mret, M_ret, ret, raise in H;
  unfold np_random_rand, mem_alloc, call, free, drop, get, release in H; cbn in H;
  repeat (case_match; simplify_eq/=).

Ltac heap_cases :=
  repeat match goal with
         | H : _ !! _ = _ |- _ =>
             progress rewrite ?lookup_delete, ?lookup_insert in H
         end;
  repeat (case_decide; try lia; simplify_eq/=).

Ltac tests :=
  repeat match goal with
         | H : (_ <=? _) = false |- _ => apply Z.leb_gt in H
         | H : (_ <=? _) = true |- _ => apply Z.leb_le in H
         | H : (_ =? _) = true |- _ => apply Z.eqb_eq in H
         | H : (_ =? _) = false |- _ => apply Z.eqb_neq in H
         end.

(** A call on a host matrix of shape [Hshape], step by step, with the
    tests on sizes and free memory turned into (in)equalities. *)
Ltac host_steps H Hshape :=
  run_facade H; rewrite ?length_map, ?length_seq in *;
  unfold util_prep_ndarray in *; rewrite ?Hshape in *; cbn [fst snd] in *;
  tests.

Ltac released_case :=
  let h := fresh "h" in let b := fresh "b" in
  let Hlk := fresh "Hlk" in let Hk := fresh "Hk" in
  intros h b Hlk Hk; heap_cases; try discriminate; try assumption.

Ltac scratch_cases :=
  lazymatch goal with
  | |- True => exact I
  | |- ex _ =>
      match goal with
      | |- context [<[?h := Draws ?us]> _] =>
          exists h, (Draws us); split; [lia|]; split; [|reflexivity];
          rewrite ?lookup_insert; repeat (case_decide; try lia); reflexivity
      end
  | |- _ /\ _ =>
      split; [released_case | split];
      [ first [ discriminate | intros _; released_case ]
      | first [ discriminate
              | intros _; eexists _, _, _; split; [reflexivity|];
                split; [reflexivity|];
                rewrite ?lookup_delete, ?lookup_insert;
                repeat (case_decide; try lia); split; reflexivity ] ]
  end.

(** The fuel handed to [_tune_sfm] by [sample_discrete_old] is enough. *)
Lemma tune_never_out_of_fuel env densities logged pad rg w :
  fst (sample_discrete_old env densities logged pad rg w) <> Raise OutOfFuel.
Proof.
  destruct (sample_discrete_old env densities logged pad rg w) as [r w'] eqn:Hrun.
  cbn. intros ->. run_facade Hrun.
  all: match goal with
       | H : sample_discrete_old_design _ _ _ _ _ = None |- _ =>
           unfold sample_discrete_old_design in H;
           match type of H with
           | context [_tune_sfm (tune_fuel ?i) ?i ?n ?s ?r] =>
               destruct (tune_sfm_returns i s r n 0) as (y & Hy & _);
               rewrite Nat.add_0_r in Hy; rewrite Hy in H; discriminate
           end
       end.
Qed.

Lemma inverse_cdf_range ws target acc i :
  i - 1 <= inverse_cdf ws target acc i <= i + Z.of_nat (length ws) - 1 /\
  (ws <> [] -> i <= inverse_cdf ws target acc i).
Proof.
  revert acc i. induction ws as [|w ws IH]; intros acc i; cbn [inverse_cdf length].
  - split; [lia | congruence].
  - destruct (Qltb target (acc + w)).
    + split; [lia | intros _; lia].
    + specialize (IH (acc + w)%Q (i + 1)). split; [lia | intros _; lia].
Qed.

Lemma finite_row_length r ws : finite_row r = Some ws -> length ws = length r.
Proof.
  revert ws. induction r as [|[q|] r IH]; intros ws; cbn [finite_row].
  - intros [= <-]. reflexivity.
  - destruct (finite_row r) as [ws'|]; cbn; [|discriminate].
    intros [= <-]. cbn. f_equal. now apply IH.
  - discriminate.
Qed.

Lemma sample_row_range k r u :
  1 <= k -> length r = Z.to_nat k -> 0 <= sample_row k r u < k.
Proof.
  intros Hk Hlen. unfold sample_row.
  rewrite firstn_all2 by lia.
  destruct (finite_row r) as [ws|] eqn:Hfin; [|lia].
  apply finite_row_length in Hfin.
  pose proof (inverse_cdf_range ws (u * total_mass ws)%Q 0%Q 0) as [Hr Hne].
  assert (ws <> []) by (destruct ws; [cbn in Hfin; lia | discriminate]).
  specialize (Hne ltac:(assumption)). lia.
Qed.

(** With rows of [k >= 1] entries, the kernel of the specification writes
    [n] indices, each in [[0, k)]. *)
Lemma categorical_kernel_range n k a us :
  1 <= k -> length (rows a) = Z.to_nat n ->
  Forall (fun r => length r = Z.to_nat k) (rows a) ->
  length (categorical_kernel n k a us) = Z.to_nat n /\
  Forall (fun i => 0 <= i < k) (categorical_kernel n k a us).
Proof.
  intros Hk Hn Hrows. unfold categorical_kernel. split.
  - now rewrite length_map, length_seq.
  - apply List.Forall_forall. intros i Hi. apply in_map_iff in Hi as (j & <- & Hj).
    apply in_seq in Hj. apply sample_row_range; [assumption|].
    rewrite List.Forall_forall in Hrows. apply Hrows. apply nth_In. lia.
Qed.

(** [sample_discrete] returns int32, as its docstring says. *)
Lemma sample_discrete_returns_int32 env densities logged rg w out w' :
  sample_discrete env densities logged rg w = (Ok out, w') ->
  indices_dtype out = int32.
Proof.
  intros Hrun. run_facade Hrun; try reflexivity.
  all: heap_cases; reflexivity.
Qed.

(** C6: the code departs from the claim and from its own docstring.
    Whatever [sample_discrete_old] returns has element type float32, not
    int32: line 130 allocates the destination with [dtype=np.float32]. *)
Theorem sample_discrete_old_returns_float32 env densities logged pad rg w out w' :
  sample_discrete_old env densities logged pad rg w = (Ok out, w') ->
  indices_dtype out = float32.
Proof.
  intros Hrun. run_facade Hrun; try reflexivity.
  all: heap_cases; reflexivity.
Qed.

Lemma sample_discrete_old_returns_float32_witness :
  indices_dtype (Copied float32 [1]) = float32.
Proof.
  apply (sample_discrete_old_returns_float32 fermi_env (OnHost fair_coin) false false false
           (fresh_world (fun _ => (3 # 4)%Q)) (Copied float32 [1])
           (snd (sample_discrete_old fermi_env (OnHost fair_coin) false false false
                   (fresh_world (fun _ => (3 # 4)%Q))))).
  vm_compute. reflexivity.
Defined.

(** C7, as stated, fails.  A row with a non-finite entry is copied to the
    device, three buffers are allocated and the kernel is launched; the call
    returns an index. *)
Lemma nonfinite_input_is_launched :
  let r := sample_discrete fermi_env (OnHost nan_row) false false
             (fresh_world (fun _ => 0%Q)) in
  fst r = Ok (Copied int32 [1]) /\
  launched (snd r) = [sample_discrete_design fermi 1] /\
  next_handle (snd r) = 3%nat.
Proof. vm_compute. repeat split. Qed.

(** C7, amended.  Neither entry point ever raises a ValidationError, and
    [sample_discrete] acquires device memory without having looked at its
    input.  For a host matrix of [n >= 1] rows and [k >= 1] columns with any
    entries, as soon as the device has room for the densities, the draws and
    the output, it allocates the three buffers and launches the kernel.
    For [n >= 1] rows without entries ([k = 0]) it still allocates the draws
    and the output.  For a matrix without rows ([n = 0]) it acquires nothing,
    since PyCUDA allocates nothing for an array without elements, and the
    call ends in an error, which is not a ValidationError. *)
Theorem facade_does_not_validate env densities logged pad rg w :
  fst (sample_discrete env densities logged rg w) <> Raise ValidationError /\
  fst (sample_discrete_old env densities logged pad rg w) <> Raise ValidationError /\
  (forall a n k,
     densities = OnHost a -> shape a = (n, k) ->
     let r := sample_discrete env densities logged rg w in
     (1 <= n -> 1 <= k -> 4 * (n * k) + 4 * n + 4 * n <= mem_free w ->
      next_handle (snd r) = (next_handle w + 3)%nat /\
      launched (snd r) = sample_discrete_design (info env) n :: launched w) /\
     (1 <= n -> k = 0 -> 4 * n + 4 * n <= mem_free w ->
      next_handle (snd r) = (next_handle w + 2)%nat) /\
     (n = 0 ->
      (exists e, fst r = Raise e) /\
      heap (snd r) = heap w /\ next_handle (snd r) = next_handle w /\
      mem_free (snd r) = mem_free w)).
Proof.
  split; [|split].
  - destruct (sample_discrete env densities logged rg w) as [r w'] eqn:Hrun.
    cbn. intros ->. run_facade Hrun.
  - destruct (sample_discrete_old env densities logged pad rg w) as [r w'] eqn:Hrun.
    cbn. intros ->. run_facade Hrun.
  - intros a n k -> Hshape r.
    destruct (sample_discrete env (OnHost a) logged rg w) as [res w'] eqn:Hrun.
    subst r. cbn [fst snd].
    unfold sample_discrete, densities_shape in Hrun. rewrite Hshape in Hrun.
    split; [|split].
    + intros Hn Hk Hroom. host_steps Hrun Hshape; try nia.
      all: try (split; [lia | reflexivity]).
      all: heap_cases.
    + intros Hn -> Hroom. host_steps Hrun Hshape; try lia.
    + intros ->. host_steps Hrun Hshape; try lia.
      all: repeat split; try reflexivity; eexists; reflexivity.
Qed.

Lemma facade_does_not_validate_witness :
  let w := fresh_world (fun _ => 0%Q) in
  (let r := sample_discrete fermi_env (OnHost nan_row) false false w in
   next_handle (snd r) = (next_handle w + 3)%nat /\
   launched (snd r) = sample_discrete_design (info fermi_env) 1 :: launched w) /\
  (let r := sample_discrete fermi_env (OnHost empty_rows) false false w in
   next_handle (snd r) = (next_handle w + 2)%nat) /\
  (let r := sample_discrete fermi_env (OnHost no_rows) false false w in
   (exists e, fst r = Raise e) /\
   heap (snd r) = heap w /\ next_handle (snd r) = next_handle w /\
   mem_free (snd r) = mem_free w).
Proof.
  intros w. split; [|split].
  - apply (proj2 (proj2 (facade_does_not_validate fermi_env (OnHost nan_row)
                           false false false w)) nan_row 1 2 eq_refl eq_refl);
      [lia | lia | vm_compute; discriminate].
  - apply (proj2 (proj2 (facade_does_not_validate fermi_env (OnHost empty_rows)
                           false false false w)) empty_rows 2 0 eq_refl eq_refl);
      [lia | reflexivity | vm_compute; discriminate].
  - apply (proj2 (proj2 (facade_does_not_validate fermi_env (OnHost no_rows)
                           false false false w)) no_rows 0 2 eq_refl eq_refl).
    reflexivity.
Defined.

(** C8, as stated, fails.  [sample_discrete_old] on one row of 2000
    categories asks a Fermi device for more shared memory than it has; the
    launch fails, and the draws buffer allocated by the call (handle 1) is
    still on the device when the error leaves the call. *)
Lemma failed_launch_keeps_draws :
  let w := fresh_world (fun _ => 0%Q) in
  let r := sample_discrete_old fermi_env (OnHost wide_row) false false false w in
  fst r = Raise LaunchError /\
  heap (snd r) !! 1%nat = Some (Draws [0%Q]) /\
  heap w !! 1%nat = None.
Proof. vm_compute. repeat split. Qed.

(** C8, amended.  When a sampling call returns normally, the draws buffer
    has been released, and so has the output buffer when the result was
    copied to the host; a result left on the device is still allocated.
    When the kernel launch raises, the draws buffer is not released. *)
Theorem scratch_released_on_return env densities logged pad rg w :
  scratch_released rg w (sample_discrete env densities logged rg w) /\
  scratch_released rg w (sample_discrete_old env densities logged pad rg w).
Proof.
  unfold scratch_released. split.
  - destruct (sample_discrete env densities logged rg w) as [r w'] eqn:Hrun.
    cbn [fst snd]. run_facade Hrun; scratch_cases.
  - destruct (sample_discrete_old env densities logged pad rg w) as [r w'] eqn:Hrun.
    cbn [fst snd]. run_facade Hrun; scratch_cases.
Qed.

(** C10.  [sample_discrete] takes its draws from NumPy's global generator,
    not from its arguments: two calls with the same arguments, on worlds
    that differ only in the state of the generator, return different
    indices. *)
Theorem draws_come_from_global_generator :
  exists (w1 w2 : world),
    heap w1 = heap w2 /\ next_handle w1 = next_handle w2 /\
    mem_free w1 = mem_free w2 /\ launched w1 = launched w2 /\
    fst (sample_discrete fermi_env (OnHost fair_coin) false false w1)
      = Ok (Copied int32 [0]) /\
    fst (sample_discrete fermi_env (OnHost fair_coin) false false w2)
      = Ok (Copied int32 [1]).
Proof.
  exists (fresh_world (fun _ => 0%Q)), (fresh_world (fun _ => (3 # 4)%Q)).
  repeat split; vm_compute; reflexivity.
Qed.

(** * Further properties *)

(** ** The legacy search and the grid *)

(** X1.  With device attributes in the C int range and a positive register
    count, [_tune_sfm] has a closed form: the block y-dimension is 1 when
    the shared-memory test fails, and otherwise the smaller of what the
    thread budget (half the device limit) and the register budget (nine
    tenths of the register file) allow, but at least 1. *)
Theorem tune_ydim_closed_form info n stride func_regs extra :
  c_int_limits info -> 0 < func_regs ->
  let x := tune_xdim info in
  let by_threads := max_block_threads info / 2 / x in
  let by_regs := (9 * max_registers info - 1) / (10 * func_regs * x) in
  let smem_ok := 5 * (4 * (x * stride + x)) <? 4 * shared_mem info in
  _tune_sfm (tune_fuel info + extra) info n stride func_regs
  = Some ((n / x + 1, 1),
          (x, (if smem_ok then Z.max 1 (Z.min by_threads by_regs) else 1), 1)).
Proof.
  intros Hlim Hregs x by_threads by_regs smem_ok.
  destruct (tune_sfm_returns info stride func_regs n extra)
    as (ydim & Hret & Hy1 & Hfail & Hbelow).
  rewrite Hret. fold x.
  enough (Hy : ydim = if smem_ok then Z.max 1 (Z.min by_threads by_regs) else 1)
    by (rewrite <- Hy; reflexivity).
  assert (Hx : 16 <= x <= 32) by (destruct (tune_xdim_cases info); unfold x; lia).
  assert (Hok : forall y, tune_ok info stride func_regs y
                          = smem_ok && (y <=? by_regs) && (y <=? by_threads)).
  { intros y. rewrite tune_ok_exact by assumption. fold x. fold smem_ok.
    f_equal; [f_equal|].
    - assert (HD : 0 < 10 * func_regs * x) by nia.
      pose proof (Z.div_mod (9 * max_registers info - 1) (10 * func_regs * x) ltac:(lia)) as Hdm.
      pose proof (Z.mod_pos_bound (9 * max_registers info - 1) (10 * func_regs * x) HD) as Hmb.
      fold by_regs in Hdm.
      destruct (Z.ltb_spec (10 * (func_regs * y * x)) (9 * max_registers info)),
               (Z.leb_spec y by_regs); try reflexivity; exfalso; nia.
    - pose proof (Z.div_mod (max_block_threads info / 2) x ltac:(lia)) as Hdm.
      pose proof (Z.mod_pos_bound (max_block_threads info / 2) x ltac:(lia)) as Hmb.
      fold by_threads in Hdm.
      destruct (Z.leb_spec (x * y) (max_block_threads info / 2)),
               (Z.leb_spec y by_threads); try reflexivity; exfalso; nia. }
  rewrite Hok in Hfail. clearbody by_threads by_regs.
  destruct smem_ok eqn:Hs.
  - destruct (Z.eq_dec ydim 1) as [-> | Hne].
    + change (1 + 1) with 2 in Hfail. cbn [andb] in Hfail.
      apply andb_false_iff in Hfail as [H | H]; apply Z.leb_gt in H; lia.
    + pose proof (Hbelow ydim ltac:(lia)) as Hy. rewrite Hok in Hy. cbn [andb] in *.
      apply andb_true_iff in Hy as [H1 H2]. apply Z.leb_le in H1, H2.
      apply andb_false_iff in Hfail as [H | H]; apply Z.leb_gt in H; lia.
  - destruct (Z.eq_dec ydim 1) as [-> | Hne]; [reflexivity|].
    pose proof (Hbelow 2 ltac:(lia)) as Hy. rewrite Hok in Hy. discriminate.
Qed.

Lemma tune_ydim_closed_form_witness :
  _tune_sfm (tune_fuel fermi + 0) fermi 1000 5 20 = Some ((32, 1), (32, 16, 1)).
Proof.
  apply (tune_ydim_closed_form fermi 1000 5 20 0); [unfold c_int_limits; cbn; lia | lia].
Defined.

Lemma tune_ok_demand info stride stride' func_regs func_regs' y :
  stride <= stride' -> func_regs <= func_regs' -> 0 <= y ->
  tune_ok info stride' func_regs' y = true -> tune_ok info stride func_regs y = true.
Proof.
  intros Hs Hr Hy. unfold tune_ok, sfm_config_ok.
  rewrite !andb_true_iff. intros [[H1 H2] H3].
  destruct (tune_xdim_cases info) as [Hx | Hx]; rewrite Hx in *;
    (repeat split;
     [eapply int_lt_mono; [|exact H1]; lia
     | eapply int_lt_mono; [|exact H2]; nia
     | assumption]).
Qed.

(** A search whose condition is implied by another's returns no more. *)
Lemma tune_sfm_le info1 info2 n stride1 stride2 regs1 regs2 extra g1 g2 x1 x2 y1 y2 :
  (forall y, 2 <= y -> tune_ok info1 stride1 regs1 y = true ->
             tune_ok info2 stride2 regs2 y = true) ->
  _tune_sfm (tune_fuel info1 + extra) info1 n stride1 regs1 = Some (g1, (x1, y1, 1)) ->
  _tune_sfm (tune_fuel info2 + extra) info2 n stride2 regs2 = Some (g2, (x2, y2, 1)) ->
  y1 <= y2.
Proof.
  intros Himp H1 H2.
  destruct (tune_sfm_returns info1 stride1 regs1 n extra) as (a & Ha & Ha1 & _ & Habelow).
  destruct (tune_sfm_returns info2 stride2 regs2 n extra) as (b & Hb & Hb1 & Hbfail & _).
  rewrite Ha in H1. rewrite Hb in H2. injection H1 as _ _ ->. injection H2 as _ _ ->.
  destruct (Z_le_gt_dec y1 y2) as [Hle | Hgt]; [exact Hle|].
  rewrite (Himp (y2 + 1)) in Hbfail; [discriminate | lia |].
  apply Habelow. lia.
Qed.

(** X2.  A kernel that needs more (a longer stride, more registers in a
    thread) never gets a taller block from [_tune_sfm]. *)
Theorem tune_ydim_antitone_in_demand info n stride stride' func_regs func_regs' extra :
  stride <= stride' -> func_regs <= func_regs' ->
  exists g g' ydim ydim',
    _tune_sfm (tune_fuel info + extra) info n stride func_regs
      = Some (g, (tune_xdim info, ydim, 1)) /\
    _tune_sfm (tune_fuel info + extra) info n stride' func_regs'
      = Some (g', (tune_xdim info, ydim', 1)) /\
    ydim' <= ydim.
Proof.
  intros Hs Hr.
  destruct (tune_sfm_returns info stride func_regs n extra) as (a & Ha & _).
  destruct (tune_sfm_returns info stride' func_regs' n extra) as (b & Hb & _).
  do 4 eexists. split; [exact Ha|]. split; [exact Hb|].
  eapply tune_sfm_le; [|exact Hb|exact Ha].
  intros y Hy. apply tune_ok_demand; lia.
Qed.

Lemma tune_ydim_antitone_in_demand_witness :
  exists g g' ydim ydim',
    _tune_sfm (tune_fuel fermi + 0) fermi 1000 5 20
      = Some (g, (tune_xdim fermi, ydim, 1)) /\
    _tune_sfm (tune_fuel fermi + 0) fermi 1000 7 63
      = Some (g', (tune_xdim fermi, ydim', 1)) /\
    ydim' <= ydim.
Proof. apply (tune_ydim_antitone_in_demand fermi 1000 5 7 20 63 0); lia. Defined.

(** X3.  Between two devices of the same compute capability with
    attributes in the C int range, the one with the larger limits never
    gets a shorter block from [_tune_sfm]. *)
Theorem tune_ydim_monotone_in_device info info' n stride func_regs extra :
  c_int_limits info -> c_int_limits info' ->
  fst (compute_cap info) = fst (compute_cap info') ->
  max_block_threads info <= max_block_threads info' ->
  shared_mem info <= shared_mem info' ->
  max_registers info <= max_registers info' ->
  exists g g' x ydim ydim',
    _tune_sfm (tune_fuel info + extra) info n stride func_regs = Some (g, (x, ydim, 1)) /\
    _tune_sfm (tune_fuel info' + extra) info' n stride func_regs = Some (g', (x, ydim', 1)) /\
    ydim <= ydim'.
Proof.
  intros Hl Hl' Hcap Ht Hs Hr.
  assert (Hx : tune_xdim info' = tune_xdim info) by (unfold tune_xdim; now rewrite Hcap).
  destruct (tune_sfm_returns info stride func_regs n extra) as (a & Ha & _).
  destruct (tune_sfm_returns info' stride func_regs n extra) as (b & Hb & _).
  rewrite Hx in Hb.
  do 5 eexists. split; [exact Ha|]. split; [exact Hb|].
  eapply tune_sfm_le; [|exact Ha|exact Hb].
  intros y Hy. rewrite !tune_ok_exact by assumption. rewrite Hx.
  rewrite !andb_true_iff, !Z.ltb_lt, !Z.leb_le. intros [[H1 H2] H3].
  repeat split; try lia. Z.div_mod_to_equations. lia.
Qed.

Lemma tune_ydim_monotone_in_device_witness :
  exists g g' x ydim ydim',
    _tune_sfm (tune_fuel fermi + 0) fermi 1000 5 40 = Some (g, (x, ydim, 1)) /\
    _tune_sfm (tune_fuel fermi_more_registers + 0)
      fermi_more_registers 1000 5 40 = Some (g', (x, ydim', 1)) /\
    ydim <= ydim'.
Proof.
  apply (tune_ydim_monotone_in_device fermi fermi_more_registers
           1000 5 40 0);
    unfold c_int_limits; cbn; lia.
Defined.

Example more_registers_more_rows :
  _tune_sfm 100 fermi 1000 5 63 = Some ((32, 1), (32, 14, 1)) /\
  _tune_sfm 100 fermi_more_registers 1000 5 63
    = Some ((32, 1), (32, 16, 1)).
Proof. vm_compute. split; reflexivity. Qed.

(** X4.  Both designs cover every row and launch at most one block's worth
    of idle rows: the grid times the rows of a block lies in
    [(n, n + rows]]; for [n >= 0] the fixed design launches at least one
    block. *)
Theorem grid_slack info n stride func_regs extra :
  (let l := sample_discrete_design info n in
   n < fst (grid l) * block_y (block l) <= n + block_y (block l)) /\
  (exists g b,
     _tune_sfm (tune_fuel info + extra) info n stride func_regs = Some (g, b) /\
     n < fst g * block_x b <= n + block_x b) /\
  (0 <= n -> 1 <= fst (grid (sample_discrete_design info n))).
Proof.
  split; [|split].
  - cbn. Z.div_mod_to_equations. lia.
  - destruct (tune_sfm_returns info stride func_regs n extra) as (y & Hy & _).
    do 2 eexists. split; [exact Hy|]. cbn.
    destruct (tune_xdim_cases info) as [-> | ->]; Z.div_mod_to_equations; lia.
  - intros Hn. cbn. Z.div_mod_to_equations. lia.
Qed.

(** ** The facade *)

Ltac frame_case :=
  cbn [heap fst snd];
  rewrite ?lookup_delete, ?lookup_insert;
  repeat (case_decide; try lia); try reflexivity.

Ltac shape_norm :=
  cbn [densities_shape fst snd] in *; unfold util_prep_ndarray in *;
  repeat match goal with
         | H : ?s = (_, _) |- context [?s] => rewrite H
         | H : ?s = (_, _), H' : context [?s] |- _ =>
             lazymatch H' with H => fail | _ => rewrite H in H' end
         end;
  cbn [fst snd] in *.

Ltac old_facade H :=
  unfold sample_discrete_old in H;
  match type of H with
  | context [pad_data_mult16 ?env ?d] =>
      match type of H with
      | context [if ?l then cu_module _ _ else _] =>
          fold (old_cu_func env l) in H;
          match type of H with
          | context [if ?p then ?a else d] =>
              change (if p then a else d) with (old_densities env d l p) in H
          end
      end
  end.

Ltac host_run H Hshape :=
  unfold sample_discrete, sample_discrete_old, densities_shape in H;
  rewrite Hshape in H; run_facade H; heap_cases;
  unfold util_prep_ndarray, next_draws in *; rewrite ?Hshape in *; cbn [fst snd] in *.

Ltac lookups :=
  cbn [heap mem_free launched np_random next_handle consumed stream nbytes];
  rewrite ?lookup_delete, ?lookup_insert; repeat (case_decide; try lia).







(** X8.  A call launches the kernel at most once, with the design of the
    planner: exactly once when it returns or when the launch itself fails,
    and not at all when it stops at an allocation. *)
Theorem one_launch_per_call env densities logged pad rg w :
  (let r := sample_discrete env densities logged rg w in
   match fst r with
   | Ok _ | Raise LaunchError =>
       launched (snd r)
       = sample_discrete_design (info env) (fst (densities_shape densities)) :: launched w
   | Raise _ => launched (snd r) = launched w
   end) /\
  (let r := sample_discrete_old env densities logged pad rg w in
   let d := old_densities env densities logged pad in
   match fst r with
   | Ok _ | Raise LaunchError =>
       exists design,
         sample_discrete_old_design (tune_fuel (info env)) (info env)
           (fst (densities_shape d)) (snd (densities_shape d))
           (num_regs (old_cu_func env logged)) = Some design /\
         launched (snd r) = design :: launched w
   | Raise _ => launched (snd r) = launched w
   end).
Proof.
  split.
  - destruct (sample_discrete env densities logged rg w) as [r w'] eqn:Hrun.
    cbn [fst snd]. run_facade Hrun; heap_cases; shape_norm; reflexivity.
  - destruct (sample_discrete_old env densities logged pad rg w) as [r w'] eqn:Hrun.
    cbn [fst snd]. old_facade Hrun.
    generalize dependent (old_densities env densities logged pad). intros d Hrun.
    run_facade Hrun; heap_cases; shape_norm;
      first [reflexivity | eexists; split; [eassumption | reflexivity]].
Qed.

(** X9.  A call that returns leaves nothing of its own on the device but
    the result: the copy of a host matrix that it uploaded is released when
    the call returns (with the local array that held it; the source has no
    [free()] for it), and the free device memory is what it was before the
    call, less the [4 * n] bytes of a result that stays on the device. *)
Theorem uploaded_densities_released_on_return env a n k logged rg w out w' :
  shape a = (n, k) ->
  sample_discrete env (OnHost a) logged rg w = (Ok out, w')
  \/ sample_discrete_old env (OnHost a) logged false rg w = (Ok out, w') ->
  heap w' !! next_handle w = None /\
  mem_free w' = mem_free w - (if rg then 4 * n else 0).
Proof.
  intros Hshape [Hrun | Hrun]; host_run Hrun Hshape; lookups;
    rewrite ?length_map, ?length_seq; (split; [reflexivity | lia]).
Qed.

Lemma uploaded_densities_released_on_return_witness :
  let w := fresh_world (fun _ => 0%Q) in
  let w' := snd (sample_discrete fermi_env (OnHost fair_coin) false true w) in
  heap w' !! next_handle w = None /\
  mem_free w' = mem_free w - (if true then 4 * 1 else 0).
Proof.
  intros w w'.
  apply (uploaded_densities_released_on_return fermi_env fair_coin 1 2 false true w
           (Resident {| gpudata := Some 2%nat; ga_shape := (1, 1); ga_dtype := int32;
                        f_contiguous := false |}) w').
  - reflexivity.
  - left. vm_compute. reflexivity.
Defined.

(** X10.  When the launch fails, nothing the call allocated for a host
    matrix is released: the densities, the draws and the still empty
    destination are all on the device. *)
Theorem failed_launch_releases_nothing env a n k logged rg w w' :
  shape a = (n, k) ->
  sample_discrete env (OnHost a) logged rg w = (Raise LaunchError, w')
  \/ sample_discrete_old env (OnHost a) logged false rg w = (Raise LaunchError, w') ->
  heap w' !! next_handle w = Some (Weights a) /\
  heap w' !! S (next_handle w) = Some (Draws (next_draws w n)) /\
  (exists dt, heap w' !! S (S (next_handle w)) = Some (Dest dt n [])) /\
  mem_free w' = mem_free w - 4 * (n * k) - 4 * Z.of_nat (Z.to_nat n) - 4 * n.
Proof.
  intros Hshape [Hrun | Hrun]; host_run Hrun Hshape; lookups;
    rewrite ?length_map, ?length_seq;
    (split; [reflexivity | split; [reflexivity | split; [eexists; reflexivity | lia]]]).
Qed.

Lemma failed_launch_releases_nothing_witness :
  let w := fresh_world (fun _ => 0%Q) in
  let w' := snd (sample_discrete_old fermi_env (OnHost wide_row) false false false w) in
  heap w' !! next_handle w = Some (Weights wide_row) /\
  heap w' !! S (next_handle w) = Some (Draws (next_draws w 1)) /\
  (exists dt, heap w' !! S (S (next_handle w)) = Some (Dest dt 1 [])) /\
  mem_free w' = mem_free w - 4 * (1 * 2000) - 4 * Z.of_nat (Z.to_nat 1) - 4 * 1.
Proof.
  intros w w'.
  apply (failed_launch_releases_nothing fermi_env wide_row 1 2000 false false w w').
  - reflexivity.
  - right. vm_compute. reflexivity.
Defined.

(** X11.  For a host matrix of [n >= 1] rows and [k >= 1] columns: when
    the device has no room for the densities, the call raises MemoryError
    and leaves the world as it found it: no draw is taken and nothing is
    launched.  When a later allocation fails, the uploaded densities stay
    allocated, the draws have been taken from the generator, and nothing is
    launched. *)
Theorem allocation_failure env a n k logged rg w :
  shape a = (n, k) -> 1 <= n -> 1 <= k ->
  (mem_free w < 4 * (n * k) ->
   sample_discrete env (OnHost a) logged rg w = (Raise MemoryError, w) /\
   sample_discrete_old env (OnHost a) logged false rg w = (Raise MemoryError, w)) /\
  (4 * (n * k) <= mem_free w ->
   forall w',
     sample_discrete env (OnHost a) logged rg w = (Raise MemoryError, w')
     \/ sample_discrete_old env (OnHost a) logged false rg w = (Raise MemoryError, w') ->
     heap w' !! next_handle w = Some (Weights a) /\
     launched w' = launched w /\
     consumed (np_random w') = (consumed (np_random w) + Z.to_nat n)%nat).
Proof.
  intros Hshape Hn Hk. split.
  - intros Hmem.
    assert (Hfail : (4 * (n * k) <=? mem_free w) = false) by (apply Z.leb_gt; lia).
    assert (Hsize : (4 * (n * k) =? 0) = false) by (apply Z.eqb_neq; nia).
    unfold sample_discrete, sample_discrete_old, densities_shape. rewrite Hshape.
    unfold prep_data, to_gpu, util_prep_ndarray, mbind, M_bind, bind, mem_alloc.
    cbn [nbytes]. rewrite Hshape. cbn [fst snd]. rewrite Hsize, Hfail.
    split; reflexivity.
  - intros Hmem w' [Hrun | Hrun]; host_run Hrun Hshape; lookups; tests;
      try nia; repeat split; reflexivity.
Qed.

Lemma allocation_failure_witness :
  (sample_discrete fermi_env (OnHost fair_coin) false false full_world
     = (Raise MemoryError, full_world) /\
   sample_discrete_old fermi_env (OnHost fair_coin) false false false full_world
     = (Raise MemoryError, full_world)) /\
  (let w' := snd (sample_discrete fermi_env (OnHost fair_coin) false false tight_world) in
   heap w' !! next_handle tight_world = Some (Weights fair_coin) /\
   launched w' = launched tight_world /\
   consumed (np_random w') = (consumed (np_random tight_world) + Z.to_nat 1)%nat).
Proof.
  split.
  - apply (proj1 (allocation_failure fermi_env fair_coin 1 2 false false full_world
                    eq_refl ltac:(lia) ltac:(lia))).
    cbn. lia.
  - intros w'.
    apply (proj2 (allocation_failure fermi_env fair_coin 1 2 false false tight_world
                    eq_refl ltac:(lia) ltac:(lia))).
    + cbn. lia.
    + left. vm_compute. reflexivity.
Defined.

(** X12.  A row-major device array is sampled in place: a call that
    returns has allocated the draws and the destination only.  A host
    matrix costs a third allocation, for its copy on the device. *)
Theorem allocations_per_call env densities logged pad rg w out w' c :
  (fresh_buffers densities = Some c ->
   sample_discrete env densities logged rg w = (Ok out, w') ->
   next_handle w' = (next_handle w + c)%nat) /\
  (fresh_buffers (old_densities env densities logged pad) = Some c ->
   sample_discrete_old env densities logged pad rg w = (Ok out, w') ->
   next_handle w' = (next_handle w + c)%nat).
Proof.
  split; intros Hc Hrun.
  - run_facade Hrun; cbn [fresh_buffers next_handle] in *;
      repeat match goal with
             | H : f_contiguous _ = _ |- _ => rewrite H in *
             end;
      simplify_eq/=; lia.
  - old_facade Hrun. revert Hc Hrun.
    generalize (old_densities env densities logged pad). intros d Hc Hrun.
    run_facade Hrun; cbn [fresh_buffers next_handle] in *;
      repeat match goal with
             | H : f_contiguous _ = _ |- _ => rewrite H in *
             end;
      simplify_eq/=; lia.
Qed.

Lemma allocations_per_call_witness :
  next_handle (snd (sample_discrete fermi_env (OnHost fair_coin) false true
                      (fresh_world (fun _ => 0%Q))))
  = (next_handle (fresh_world (fun _ => 0%Q)) + 3)%nat.
Proof.
  apply (proj1 (allocations_per_call fermi_env (OnHost fair_coin) false false true
                  (fresh_world (fun _ => 0%Q))
                  (Resident {| gpudata := Some 2%nat; ga_shape := (1, 1); ga_dtype := int32;
                               f_contiguous := false |})
                  (snd (sample_discrete fermi_env (OnHost fair_coin) false true
                          (fresh_world (fun _ => 0%Q)))) 3%nat)).
  - reflexivity.
  - vm_compute. reflexivity.
Defined.

(** A successful [sample_discrete] on a host matrix, step by step: what it
    returns and the world it leaves. *)
Lemma sample_discrete_host_ok env a n k logged rg w out w' :
  shape a = (n, k) ->
  sample_discrete env (OnHost a) logged rg w = (Ok out, w') ->
  exists vals,
    run (cu_module env K_sample_discrete) (sample_discrete_design (info env) n)
        [n; k; Z.b2z logged] a (next_draws w n) = Some vals /\
    result_values out w' = Some vals /\
    (rg = true -> exists g, out = Resident g /\ gpudata g = Some (S (S (next_handle w)))) /\
    next_handle w' = S (S (S (next_handle w))) /\
    np_random w' = {| stream := stream (np_random w);
                      consumed := (consumed (np_random w) + Z.to_nat n)%nat |}.
Proof.
  intros Hshape Hrun. host_run Hrun Hshape.
  all: eexists; split; [eassumption|];
    cbn [result_values gpudata heap next_handle np_random];
    rewrite ?lookup_delete, ?lookup_insert; repeat (case_decide; try lia);
    repeat split; try discriminate; try (intros _; eexists; split; reflexivity).
Qed.



(** X14.  A result left on the device is not disturbed by later sampling
    calls, whatever their arguments and however they end. *)
Theorem resident_result_survives_later_calls
    env a n k logged w out w1 densities logged' pad' rg' :
  shape a = (n, k) ->
  sample_discrete env (OnHost a) logged true w = (Ok out, w1) ->
  result_values out (snd (sample_discrete env densities logged' rg' w1))
    = result_values out w1 /\
  result_values out (snd (sample_discrete_old env densities logged' pad' rg' w1))
    = result_values out w1.
Proof.
  intros Hshape Hrun1.
  destruct (sample_discrete_host_ok _ _ _ _ _ _ _ _ _ Hshape Hrun1)
    as (v & _ & _ & Hres & Hnext & _).
  destruct (Hres eq_refl) as (g & -> & Hg).
  unfold result_values. rewrite Hg.
  clear Hrun1 Hres Hg. revert Hnext. generalize (S (S (next_handle w))). intros h Hnext.
  split.
  - enough (heap (snd (sample_discrete env densities logged' rg' w1)) !! h = heap w1 !! h)
      as -> by reflexivity.
    destruct (sample_discrete env densities logged' rg' w1) as [r w'] eqn:Hrun.
    run_facade Hrun; frame_case.
  - enough (heap (snd (sample_discrete_old env densities logged' pad' rg' w1)) !! h
            = heap w1 !! h) as -> by reflexivity.
    destruct (sample_discrete_old env densities logged' pad' rg' w1) as [r w'] eqn:Hrun.
    run_facade Hrun; frame_case.
Qed.

Lemma resident_result_survives_later_calls_witness :
  let w := fresh_world two_draws in
  let out := Resident {| gpudata := Some 2%nat; ga_shape := (1, 1); ga_dtype := int32;
                         f_contiguous := false |} in
  let w1 := snd (sample_discrete fermi_env (OnHost fair_coin) false true w) in
  result_values out (snd (sample_discrete fermi_env (OnHost wide_row) false false w1))
    = result_values out w1 /\
  result_values out (snd (sample_discrete_old fermi_env (OnHost wide_row) false false false w1))
    = result_values out w1.
Proof.
  intros w out w1.
  apply (resident_result_survives_later_calls fermi_env fair_coin 1 2 false w out w1
           (OnHost wide_row) false false false).
  - reflexivity.
  - vm_compute. reflexivity.
Defined.
